(** * eventsensor: the event-mirroring sensor entity

    A shallow embedding of [custom_components/eventsensor/sensor.py].  The
    entity keeps a state value and an attributes mapping, restores both from
    the host when it is added, and overwrites both whenever an event that
    passes the configured data filter is delivered by the host's event bus.

    The Python objects the entity touches are modelled by [pyval]; a [dict]
    is an insertion-ordered association list whose keys are compared with
    Python's [==], which is what the interpreter's hash lookup amounts to for
    the scalar types.  Host services (restore helper, event bus, state
    machine) are a record threaded through a small exception-and-state monad,
    so that what a raised exception leaves behind is explicit.

    The module-level functions that set the platform up from a config entry
    and follow its options ([async_setup_entry], [update_listener]) are in
    [Platform], against a host that records the calls it receives. *)

From Stdlib Require Import ZArith List String Ascii Bool Lia.
From Stdlib Require Import Floats.PrimFloat Floats.SpecFloat Floats.FloatOps.
Import ListNotations.
Open Scope string_scope.
Open Scope Z_scope.
Set Warnings "-register-all".

(* ================================================================== *)
(** * Python values *)

Module Py.

(** The values that travel in configuration and event payloads.  [PFloat]
    is an IEEE binary64, [PDatetime] a timezone-aware instant counted in
    microseconds, [PList] stands for the unhashable containers a payload
    may carry. *)
Inductive pyval : Type :=
| PNone
| PBool (b : bool)
| PInt (z : Z)
| PFloat (f : float)
| PStr (s : string)
| PDatetime (t : Z)
| PList (items : list pyval).

(** [int == float]: exact comparison of the mathematical values. *)
Definition int_eq_float (z : Z) (f : float) : bool :=
  match Prim2SF f with
  | S754_zero _ => z =? 0
  | S754_finite s m e =>
      let mz := if s then Z.neg m else Z.pos m in
      if 0 <=? e then z =? mz * 2 ^ e else z * 2 ^ (- e) =? mz
  | S754_infinity _ | S754_nan => false
  end.

(** Python's [a == b].  [bool] is a subtype of [int]; numbers compare by
    value across [bool], [int] and [float]; a NaN equals nothing; values of
    unrelated types are unequal. *)
Fixpoint py_eq (a b : pyval) {struct a} : bool :=
  match a, b with
  | PNone, PNone => true
  | PBool x, PBool y => Bool.eqb x y
  | PBool x, PInt z => Z.b2z x =? z
  | PInt z, PBool x => z =? Z.b2z x
  | PBool x, PFloat f => int_eq_float (Z.b2z x) f
  | PFloat f, PBool x => int_eq_float (Z.b2z x) f
  | PInt x, PInt y => x =? y
  | PInt z, PFloat f => int_eq_float z f
  | PFloat f, PInt z => int_eq_float z f
  | PFloat f, PFloat g => PrimFloat.eqb f g
  | PStr s, PStr t => String.eqb s t
  | PDatetime s, PDatetime t => s =? t
  | PList xs, PList ys =>
      (fix all2 (l : list pyval) (r : list pyval) {struct l} : bool :=
         match l, r with
         | [], [] => true
         | x :: l', y :: r' => py_eq x y && all2 l' r'
         | _, _ => false
         end) xs ys
  | _, _ => false
  end.

(** [hash(v)] succeeds on the scalars and raises [TypeError] on a list. *)
Definition hashable (v : pyval) : bool :=
  match v with
  | PList _ => false
  | _ => true
  end.

(** Exceptions that can escape the entity's methods. *)
Inductive exn : Type :=
| KeyError (key : pyval)
| TypeError (unhashable : pyval).

Inductive result (A : Type) : Type :=
| Ok (a : A)
| Raise (e : exn).
Arguments Ok {A} a.
Arguments Raise {A} e.

(** ** Dictionaries *)

(** Entries in insertion order.  A dictionary built by the interpreter has
    hashable keys, no two of them equal. *)
Definition dict : Type := list (pyval * pyval).

(** The entry a lookup of [k] lands on. *)
Fixpoint dict_find (d : dict) (k : pyval) : option pyval :=
  match d with
  | [] => None
  | (k0, v0) :: rest => if py_eq k0 k then Some v0 else dict_find rest k
  end.

(** [d[k] = v]: an equal key keeps its slot and its key object, a new key
    goes last. *)
Fixpoint dict_set (d : dict) (k v : pyval) : dict :=
  match d with
  | [] => [(k, v)]
  | (k0, v0) :: rest =>
      if py_eq k0 k then (k0, v) :: rest else (k0, v0) :: dict_set rest k v
  end.

(** [d[k]] *)
Definition dict_getitem (d : dict) (k : pyval) : result pyval :=
  if hashable k then
    match dict_find d k with
    | Some v => Ok v
    | None => Raise (KeyError k)
    end
  else Raise (TypeError k).

(** [k in d] *)
Definition dict_contains (d : dict) (k : pyval) : result bool :=
  if hashable k then
    Ok (match dict_find d k with Some _ => true | None => false end)
  else Raise (TypeError k).

(** [(k, v) in d.items()]: the key is looked up and the value found is
    compared with [v].  The key comes out of a dictionary, so hashing it
    cannot fail. *)
Definition items_contains (d : dict) (kv : pyval * pyval) : bool :=
  match dict_find d (fst kv) with
  | Some found => py_eq found (snd kv)
  | None => false
  end.

(** [a.items() <= b.items()]: every item of [a] is an item of [b]. *)
Definition items_le (a b : dict) : bool :=
  (Nat.leb (List.length a) (List.length b)) && forallb (items_contains b) a.

(** [a.items() < b.items()]: the interpreter compares the sizes strictly
    and then checks that every item of [a] is an item of [b]. *)
Definition items_lt (a b : dict) : bool :=
  (Nat.ltb (List.length a) (List.length b)) && forallb (items_contains b) a.

(** [a == b] on dictionaries: same size and every item of one in the other. *)
Definition dict_eq (a b : dict) : bool :=
  (Nat.eqb (List.length a) (List.length b)) && forallb (items_contains b) a.

(** [{k: v for k, v in items}] and [dict(items)]: entries inserted in turn. *)
Definition dict_of_items (items : list (pyval * pyval)) : dict :=
  fold_left (fun acc kv => dict_set acc (fst kv) (snd kv)) items [].

End Py.
Import Py.

(* ================================================================== *)
(** * Host objects *)

(** [homeassistant.core.EventOrigin] and its [name]. *)
Inductive EventOrigin : Type := local | remote.

Definition name_of_origin (o : EventOrigin) : string :=
  match o with
  | local => "local"
  | remote => "remote"
  end.

(** [homeassistant.core.Event], as far as the entity reads it. *)
Record Event : Type := {
  event_type : string;
  data : dict;
  origin : EventOrigin;
  time_fired : Z
}.

(** [homeassistant.core.State] as handed back by the restore helper. *)
Record State : Type := {
  last_state_state : pyval;
  last_state_attributes : dict
}.

(** A call the entity makes into the host. *)
Inductive host_call : Type :=
| GetLastState
| BusListen (event : string) (handle : nat)
| RemoveListener (handle : nat)
| WriteHaState (st : pyval) (attrs : dict).

(** The host: what the restore helper will report, the listeners the bus
    holds for this entity (event type and handle of the remover it gave
    back), the next handle, and the calls received so far, latest first. *)
Record HomeAssistant : Type := {
  stored_state : option State;
  bus : list (string * nat);
  next_handle : nat;
  calls : list host_call
}.

(* ================================================================== *)
(** * The entity *)

(** The configuration mapping [sensor_data]; the two optional tables are
    given by their items and default to no item. *)
Record sensor_data : Type := {
  CONF_NAME : string;
  CONF_EVENT : string;
  CONF_STATE : string;
  CONF_EVENT_DATA : list (string * string);
  CONF_STATE_MAP : list (string * string)
}.

(** The fields [__init__] creates. *)
Record EventSensor : Type := {
  _name : string;
  _event : string;
  _state_key : string;
  _event_data : dict;
  _state_map : dict;
  _unique_id : string;
  _event_listener : option nat;
  _state : pyval;
  _attributes : dict
}.

(** Properties. *)
Definition name (s : EventSensor) : string := _name s.
Definition unique_id (s : EventSensor) : string := _unique_id s.
Definition state (s : EventSensor) : pyval := _state s.
Definition state_attributes (s : EventSensor) : dict := _attributes s.

Definition with_state (s : EventSensor) (v : pyval) : EventSensor :=
  {| _name := _name s; _event := _event s; _state_key := _state_key s;
     _event_data := _event_data s; _state_map := _state_map s;
     _unique_id := _unique_id s; _event_listener := _event_listener s;
     _state := v; _attributes := _attributes s |}.

Definition with_attributes (s : EventSensor) (a : dict) : EventSensor :=
  {| _name := _name s; _event := _event s; _state_key := _state_key s;
     _event_data := _event_data s; _state_map := _state_map s;
     _unique_id := _unique_id s; _event_listener := _event_listener s;
     _state := _state s; _attributes := a |}.

Definition with_event_listener (s : EventSensor) (l : option nat) : EventSensor :=
  {| _name := _name s; _event := _event s; _state_key := _state_key s;
     _event_data := _event_data s; _state_map := _state_map s;
     _unique_id := _unique_id s; _event_listener := l;
     _state := _state s; _attributes := _attributes s |}.

(** ** Methods run against the host *)

(** The entity together with the host it lives in. *)
Record World : Type := {
  self : EventSensor;
  hass : HomeAssistant
}.

(** A method body: it ends with a value or a raised exception, and either
    way leaves a world behind. *)
Definition M (A : Type) : Type := World -> result A * World.

Definition ret {A : Type} (a : A) : M A := fun w => (Ok a, w).

Definition bind {A B : Type} (m : M A) (k : A -> M B) : M B :=
  fun w =>
    match m w with
    | (Ok a, w') => k a w'
    | (Raise e, w') => (Raise e, w')
    end.

Notation "x <- m ;; k" := (bind m (fun x => k))
  (at level 61, m at next level, right associativity).
Notation "m ;; k" := (bind m (fun _ => k))
  (at level 61, right associativity).

(** An expression that may raise. *)
Definition eval {A : Type} (r : result A) : M A := fun w => (r, w).

Definition read_self : M EventSensor := fun w => (Ok (self w), w).

Definition update_self (f : EventSensor -> EventSensor) : M unit :=
  fun w => (Ok tt, {| self := f (self w); hass := hass w |}).

Definition host_log (c : host_call) (h : HomeAssistant) : HomeAssistant :=
  {| stored_state := stored_state h; bus := bus h;
     next_handle := next_handle h; calls := c :: calls h |}.

(** [await self.async_get_last_state()] *)
Definition async_get_last_state : M (option State) :=
  fun w =>
    (Ok (stored_state (hass w)),
     {| self := self w; hass := host_log GetLastState (hass w) |}).

(** [self.hass.bus.async_listen(event, callback)]: the bus keeps the
    callback and hands back the callable that removes it. *)
Definition bus_async_listen (event : string) : M nat :=
  fun w =>
    let h := hass w in
    let l := next_handle h in
    (Ok l,
     {| self := self w;
        hass := {| stored_state := stored_state h;
                   bus := (event, l) :: bus h;
                   next_handle := S l;
                   calls := BusListen event l :: calls h |} |}).

(** Calling the remover the bus handed back. *)
Definition call_listener (l : nat) : M unit :=
  fun w =>
    let h := hass w in
    (Ok tt,
     {| self := self w;
        hass := {| stored_state := stored_state h;
                   bus := filter (fun e => negb (Nat.eqb (snd e) l)) (bus h);
                   next_handle := next_handle h;
                   calls := RemoveListener l :: calls h |} |}).

(** [self.async_write_ha_state()]: the host reads the two properties. *)
Definition async_write_ha_state : M unit :=
  fun w =>
    (Ok tt,
     {| self := self w;
        hass := host_log (WriteHaState (state (self w))
                                       (state_attributes (self w)))
                         (hass w) |}).

(** [dict(mapping)] and [{**mapping}]: dictionaries are values here, so the
    fresh dictionary is its source. *)
Definition dict_copy (d : dict) : dict := d.

(** The dictionary display of the callback:
    [{**event.data, "origin": event.origin.name, "time_fired": event.time_fired}]. *)
Definition event_attributes (event : Event) : dict :=
  dict_set
    (dict_set (dict_copy (data event))
              (PStr "origin") (PStr (name_of_origin (origin event))))
    (PStr "time_fired") (PDatetime (time_fired event)).

(** The callback [async_update_sensor] that [async_added_to_hass] hands to
    the bus. *)
Definition async_update_sensor (event : Event) : M unit :=
  s <- read_self ;;
  if items_lt (_event_data s) (data event) then
    new_state <- eval (dict_getitem (data event) (PStr (_state_key s))) ;;
    mapped <- eval (dict_contains (_state_map s) new_state) ;;
    new_state <- (if mapped : bool
                  then eval (dict_getitem (_state_map s) new_state)
                  else ret new_state) ;;
    update_self (fun s => with_state s new_state) ;;
    update_self (fun s => with_attributes s (event_attributes event)) ;;
    async_write_ha_state
  else ret tt.

Definition async_added_to_hass : M unit :=
  last_state <- async_get_last_state ;;
  match last_state with
  | Some last =>
      update_self (fun s => with_state s (last_state_state last)) ;;
      update_self (fun s => with_attributes s
                              (dict_copy (last_state_attributes last)))
  | None => ret tt
  end ;;
  s <- read_self ;;
  listener <- bus_async_listen (_event s) ;;
  update_self (fun s => with_event_listener s (Some listener)).

Definition async_will_remove_from_hass : M unit :=
  s <- read_self ;;
  match _event_listener s with
  | Some listener =>
      call_listener listener ;;
      update_self (fun s => with_event_listener s None)
  | None => ret tt
  end.

(** ** Construction *)

Section Construction.

(** The interpreter's [int(text)] and [float(text)]; [None] stands for
    the [ValueError] either raises on text it cannot read. *)
Variable py_int : string -> option Z.
Variable py_float : string -> option float.

(** Modelled from the spec: [make_unique_id] of [common.py], which is not
    among the sources.  The spec says of it only that the identifier is
    derived deterministically from the configuration, so it is taken as a
    function of [sensor_data]. *)
Variable make_unique_id : sensor_data -> string.

Definition _parse_field (raw_key : string) : pyval :=
  match py_int raw_key with
  | Some z => PInt z
  | None =>
      match py_float raw_key with
      | Some f => PFloat f
      | None => PStr raw_key
      end
  end.

(** [{_parse_field(key): _parse_field(value) for key, value in items}] *)
Definition parse_table (items : list (string * string)) : dict :=
  dict_of_items
    (map (fun kv => (_parse_field (fst kv), _parse_field (snd kv))) items).

(** A table holds the coerced fields of the raw items: each of its
    entries has the coerced key of some raw item and the coerced value of
    a raw item with that key or with a key that coerces to an equal one,
    and the key of every raw item is in the table, itself or as the equal
    key stored before it. *)
Definition coerced_from (items : list (string * string)) (table : dict)
  : Prop :=
  (forall k v, In (k, v) table ->
     exists rk rv0 rk' rv,
       In (rk, rv0) items /\ In (rk', rv) items /\
       k = _parse_field rk /\ v = _parse_field rv /\
       (rk' = rk \/ py_eq (_parse_field rk) (_parse_field rk') = true)) /\
  (forall rk rv, In (rk, rv) items ->
     exists k, In k (map fst table) /\
               (k = _parse_field rk \/ py_eq k (_parse_field rk) = true)).

Definition __init__ (sd : sensor_data) : EventSensor :=
  {| _name := CONF_NAME sd;
     _event := CONF_EVENT sd;
     _state_key := CONF_STATE sd;
     _event_data := parse_table (CONF_EVENT_DATA sd);
     _state_map := parse_table (CONF_STATE_MAP sd);
     _unique_id := make_unique_id sd;
     _event_listener := None;
     _state := PNone;
     _attributes := [] |}.

End Construction.

(** ** The entity's life in the host *)

(** What the host does with the entity: add it, deliver an event to its
    callback, remove it. *)
Inductive host_step : Type :=
| Added
| Delivered (event : Event)
| Removed.

(** An exception that escapes a method is logged by the host; the world
    the method left behind stays. *)
Definition step (w : World) (st : host_step) : World :=
  match st with
  | Added => snd (async_added_to_hass w)
  | Delivered event => snd (async_update_sensor event w)
  | Removed => snd (async_will_remove_from_hass w)
  end.

Definition run (w : World) (steps : list host_step) : World :=
  fold_left step steps w.

(** The state the callback stores for an extracted value: the entry of the
    state map when there is one, the value itself otherwise. *)
Definition mapped_state (s : EventSensor) (v : pyval) : pyval :=
  match dict_find (_state_map s) v with
  | Some m => m
  | None => v
  end.

(** The filter test in the spec's words: the filter's items are a subset of
    the event data's items. *)
Definition filter_is_subset (s : EventSensor) (event : Event) : bool :=
  items_le (_event_data s) (data event).

(** The filter test the callback runs. *)
Definition accepts (s : EventSensor) (event : Event) : bool :=
  items_lt (_event_data s) (data event).

(** No key of the table equals a key stored after it. *)
Fixpoint distinct_keys (d : dict) : bool :=
  match d with
  | [] => true
  | (k, _) :: rest =>
      forallb (fun e => negb (py_eq k (fst e))) rest && distinct_keys rest
  end.

(* ================================================================== *)
(** * Fixtures *)

Module Demo.

(** Readers for the texts of the examples.  They read an optional sign
    and digits as [int] does, and digits, a point and digits as [float]
    does on short texts; any other text they turn down. *)
Definition digit_of (c : ascii) : option Z :=
  let n := Z.of_nat (nat_of_ascii c) in
  if (48 <=? n) && (n <=? 57) then Some (n - 48) else None.

Fixpoint digits (s : string) (acc : Z) : option Z :=
  match s with
  | EmptyString => Some acc
  | String c rest =>
      match digit_of c with
      | Some d => digits rest (10 * acc + d)
      | None => None
      end
  end.

Definition unsigned_int (s : string) : option Z :=
  match s with
  | EmptyString => None
  | _ => digits s 0
  end.

Definition int_of_text (s : string) : option Z :=
  match s with
  | String "-" rest => option_map Z.opp (unsigned_int rest)
  | String "+" rest => unsigned_int rest
  | _ => unsigned_int s
  end.

Fixpoint split_point (s : string) : option (string * string) :=
  match s with
  | EmptyString => None
  | String "." rest => Some (EmptyString, rest)
  | String c rest =>
      match split_point rest with
      | Some (a, b) => Some (String c a, b)
      | None => None
      end
  end.

Definition float_of_text (s : string) : option float :=
  match split_point s with
  | Some (a, b) =>
      match unsigned_int a, unsigned_int b with
      | Some whole, Some frac =>
          let scale := 10 ^ Z.of_nat (String.length b) in
          Some (SF2Prim
                  (SFdiv prec emax
                     (binary_normalize prec emax (whole * scale + frac) 0 false)
                     (binary_normalize prec emax scale 0 false)))
      | _, _ => None
      end
  | None => None
  end.

(** A stand-in for [make_unique_id], to run the examples. *)
Definition unique_id_of (sd : sensor_data) : string :=
  CONF_EVENT sd ++ "_" ++ CONF_STATE sd.

(** A remote control: events of one device, the button code as state. *)
Definition remote_config : sensor_data :=
  {| CONF_NAME := "Remote";
     CONF_EVENT := "deconz_event";
     CONF_STATE := "event";
     CONF_EVENT_DATA := [("id", "remote_1")];
     CONF_STATE_MAP := [("1002", "short"); ("1003", "long"); ("2.5", "half")] |}.

Definition remote : EventSensor :=
  __init__ int_of_text float_of_text unique_id_of remote_config.

(** A sensor whose state key is also the key it filters on. *)
Definition button_config : sensor_data :=
  {| CONF_NAME := "Button";
     CONF_EVENT := "button_pressed";
     CONF_STATE := "button";
     CONF_EVENT_DATA := [("button", "1002")];
     CONF_STATE_MAP := [] |}.

Definition button : EventSensor :=
  __init__ int_of_text float_of_text unique_id_of button_config.

Definition empty_host : HomeAssistant :=
  {| stored_state := None; bus := []; next_handle := 0%nat; calls := [] |}.

Definition restoring_host : HomeAssistant :=
  {| stored_state :=
       Some {| last_state_state := PStr "long";
               last_state_attributes := [(PStr "id", PStr "remote_1")] |};
     bus := []; next_handle := 0%nat; calls := [] |}.

Definition event_of (d : dict) : Event :=
  {| event_type := "deconz_event"; data := d; origin := local;
     time_fired := 1700000000000000 |}.

(** A press of the remote. *)
Definition press : Event :=
  event_of [(PStr "id", PStr "remote_1"); (PStr "event", PInt 1002)].

(** An event of the remote that carries no state key. *)
Definition keyless : Event :=
  event_of [(PStr "id", PStr "remote_1"); (PStr "battery", PInt 80)].

(** An event of the remote whose state value is a list. *)
Definition listed : Event :=
  event_of [(PStr "id", PStr "remote_1"); (PStr "event", PList [PInt 1002])].

(** An event of another device. *)
Definition foreign : Event :=
  event_of [(PStr "id", PStr "remote_2"); (PStr "event", PInt 1002)].

(** An event whose data has its own [origin] and [time_fired]. *)
Definition shadowing : Event :=
  event_of [(PStr "id", PStr "remote_1"); (PStr "origin", PStr "zigbee");
            (PStr "event", PInt 1003); (PStr "time_fired", PInt 7)].

(** An event whose data is exactly the filter of [button]. *)
Definition exact : Event :=
  {| event_type := "button_pressed"; data := [(PStr "button", PInt 1002)];
     origin := local; time_fired := 1700000000000000 |}.

End Demo.

(* ================================================================== *)
(** * Setting up from config entries *)

Module Platform.

(** A value of a configuration mapping: a text, or a table of texts (the
    event-data filter and the state map). *)
Inductive conf_value : Type :=
| CText (s : string)
| CTable (items : list (string * string)).

(** A configuration mapping, entries in insertion order, text keys. *)
Definition config : Type := list (string * conf_value).

Fixpoint table_get (t : list (string * string)) (k : string) : option string :=
  match t with
  | [] => None
  | (k0, v0) :: rest => if String.eqb k0 k then Some v0 else table_get rest k
  end.

Fixpoint config_get (c : config) (k : string) : option conf_value :=
  match c with
  | [] => None
  | (k0, v0) :: rest => if String.eqb k0 k then Some v0 else config_get rest k
  end.

(** [a == b] on two tables: same size, and every key of [a] is in [b] with
    an equal value. *)
Definition table_eq (a b : list (string * string)) : bool :=
  Nat.eqb (List.length a) (List.length b) &&
  forallb (fun kv => match table_get b (fst kv) with
                     | Some bval => String.eqb bval (snd kv)
                     | None => false
                     end) a.

Definition conf_value_eq (a b : conf_value) : bool :=
  match a, b with
  | CText s, CText t => String.eqb s t
  | CTable x, CTable y => table_eq x y
  | _, _ => false
  end.

(** [a == b] on two configuration mappings. *)
Definition config_eq (a b : config) : bool :=
  Nat.eqb (List.length a) (List.length b) &&
  forallb (fun kv => match config_get b (fst kv) with
                     | Some bval => conf_value_eq bval (snd kv)
                     | None => false
                     end) a.

(** [mapping[key]] *)
Definition config_getitem (c : config) (k : string) : result conf_value :=
  match config_get c k with
  | Some v => Ok v
  | None => Raise (KeyError (PStr k))
  end.

(** [homeassistant.config_entries.ConfigEntry], the fields this platform
    reads or has the host write. *)
Record ConfigEntry : Type := {
  entry_id : string;
  entry_unique_id : option string;
  entry_title : conf_value;
  entry_data : config;
  entry_options : config
}.

(** A call the platform makes into the host. *)
Inductive setup_call : Type :=
| UpdateEntry (id : string) (title : option conf_value)
              (new_data new_options : option config)
              (new_unique_id : option string)
| AddEntities (sensor_data : config) (update_before_add : bool)
| AddUpdateListener (id : string) (remover : nat)
| Reload (id : string).

(** The host as the platform sees it: [hass.data.get(DOMAIN_DATA)] (the
    removers of the update listeners, by entry id), the next remover, and
    the calls received so far, latest first. *)
Record Hass : Type := {
  domain_data : option (list (string * nat));
  next_remover : nat;
  setup_calls : list setup_call
}.

Definition logged (c : setup_call) (h : Hass) : Hass :=
  {| domain_data := domain_data h; next_remover := next_remover h;
     setup_calls := c :: setup_calls h |}.

(** [key in hass.data[DOMAIN_DATA]] *)
Definition in_domain_data (id : string) (h : Hass) : bool :=
  match domain_data h with
  | Some dd => existsb (fun e => String.eqb (fst e) id) dd
  | None => false
  end.

(** [hass.config_entries.async_update_entry(entry, ...)]: the host
    overwrites the fields it is given. *)
Definition async_update_entry (entry : ConfigEntry)
           (title : option conf_value) (new_data new_options : option config)
           (new_unique_id : option string) (h : Hass) : ConfigEntry * Hass :=
  ({| entry_id := entry_id entry;
      entry_unique_id := match new_unique_id with
                         | Some u => Some u
                         | None => entry_unique_id entry
                         end;
      entry_title := match title with
                     | Some t => t
                     | None => entry_title entry
                     end;
      entry_data := match new_data with
                    | Some d => d
                    | None => entry_data entry
                    end;
      entry_options := match new_options with
                       | Some o => o
                       | None => entry_options entry
                       end |},
   logged (UpdateEntry (entry_id entry) title new_data new_options
                       new_unique_id) h).

(** [config_entry.add_update_listener(update_listener)]: the host hands
    back the callable that removes the listener. *)
Definition add_update_listener (entry : ConfigEntry) (h : Hass) : nat * Hass :=
  (next_remover h,
   {| domain_data := domain_data h; next_remover := S (next_remover h);
      setup_calls := AddUpdateListener (entry_id entry) (next_remover h)
                       :: setup_calls h |}).

Definition async_setup_entry (config_entry : ConfigEntry) (h : Hass)
  : ConfigEntry * Hass :=
  let h :=
    match domain_data h with
    | None => {| domain_data := Some []; next_remover := next_remover h;
                 setup_calls := setup_calls h |}
    | Some _ => h
    end in
  let '(config_entry, h) :=
    if in_domain_data (entry_id config_entry) h then
      async_update_entry config_entry None None
                         (Some (entry_options config_entry)) None h
    else (config_entry, h) in
  let h := logged (AddEntities (entry_data config_entry) false) h in
  if negb (in_domain_data (entry_id config_entry) h) then
    let '(remover, h) := add_update_listener config_entry h in
    (config_entry,
     {| domain_data :=
          Some (match domain_data h with
                | Some dd => (dd ++ [(entry_id config_entry, remover)])%list
                | None => [(entry_id config_entry, remover)]
                end);
        next_remover := next_remover h;
        setup_calls := setup_calls h |})
  else (config_entry, h).

Section UpdateListener.

(** [homeassistant.const.CONF_NAME], the key of the sensor name. *)
Variable conf_name : string.

(** Modelled from the spec: [make_unique_id] of [common.py], which is not
    among the sources; a function of the configuration mapping. *)
Variable make_unique_id : config -> string.

Definition update_listener (entry : ConfigEntry) (h : Hass)
  : result unit * (ConfigEntry * Hass) :=
  let changes :=
    Nat.ltb 1 (List.length (entry_options entry)) &&
    negb (config_eq (entry_data entry) (entry_options entry)) in
  if changes then
    match config_getitem (entry_options entry) conf_name with
    | Raise e => (Raise e, (entry, h))
    | Ok title =>
        let '(entry', h) :=
          async_update_entry entry (Some title) (Some (entry_options entry))
                             (Some []) (Some (make_unique_id (entry_options entry)))
                             h in
        (Ok tt, (entry', logged (Reload (entry_id entry)) h))
    end
  else (Ok tt, (entry, h)).

End UpdateListener.

(** Entries set up one after the other. *)
Definition setup_all (entries : list ConfigEntry) (h : Hass) : Hass :=
  fold_left (fun h e => snd (async_setup_entry e h)) entries h.

(** The update listeners the host was asked to add for an entry id, and
    the mappings entities were constructed from, oldest first. *)
Definition listeners_added (id : string) (h : Hass) : nat :=
  List.length
    (filter (fun c => match c with
                      | AddUpdateListener i _ => String.eqb i id
                      | _ => false
                      end) (setup_calls h)).

Definition entities_added (h : Hass) : list config :=
  rev (flat_map (fun c => match c with
                          | AddEntities d _ => [d]
                          | _ => []
                          end) (setup_calls h)).

Definition fresh : Hass :=
  {| domain_data := None; next_remover := 0%nat; setup_calls := [] |}.

(** An entry as the config flow leaves it, and the same entry after the
    options flow renamed the sensor and changed its filter. *)
Definition installed : ConfigEntry :=
  {| entry_id := "e1";
     entry_unique_id := Some "u1";
     entry_title := CText "Remote";
     entry_data := [("name", CText "Remote"); ("event", CText "deconz_event");
                    ("state", CText "event");
                    ("event_data", CTable [("id", "remote_1")])];
     entry_options := [] |}.

Definition edited : ConfigEntry :=
  {| entry_id := "e1";
     entry_unique_id := Some "u1";
     entry_title := CText "Remote";
     entry_data := entry_data installed;
     entry_options :=
       [("name", CText "Hall remote"); ("event", CText "deconz_event");
        ("state", CText "event");
        ("event_data", CTable [("id", "remote_2")])] |}.

(** Options that differ from the data but have lost the name. *)
Definition nameless : ConfigEntry :=
  {| entry_id := "e1";
     entry_unique_id := Some "u1";
     entry_title := CText "Remote";
     entry_data := entry_data installed;
     entry_options := [("event", CText "deconz_event");
                       ("state", CText "event")] |}.

(** A stand-in for [make_unique_id], to run the examples. *)
Definition unique_id_of (c : config) : string :=
  match config_get c "event", config_get c "state" with
  | Some (CText e), Some (CText s) => (e ++ "_" ++ s)%string
  | _, _ => ""
  end.

End Platform.

(* ================================================================== *)
(** * Facts about values and dictionaries *)

Lemma py_eq_str_l (k : pyval) (s : string) :
  py_eq k (PStr s) = true -> k = PStr s.
Proof.
  destruct k; simpl; try discriminate.
  intros H. apply String.eqb_eq in H. now subst.
Qed.

Lemma py_eq_str_r (s : string) (k : pyval) :
  py_eq (PStr s) k = true -> k = PStr s.
Proof.
  destruct k; simpl; try discriminate.
  intros H. apply String.eqb_eq in H. now subst.
Qed.

(** Storing under a text key: that key reads the new value, every other
    key reads what it read before. *)
Lemma dict_find_set_str (d : dict) (s : string) (v k : pyval) :
  dict_find (dict_set d (PStr s) v) k =
  if py_eq (PStr s) k then Some v else dict_find d k.
Proof.
  induction d as [|[k0 v0] rest IH]; cbn [dict_set dict_find].
  - reflexivity.
  - destruct (py_eq k0 (PStr s)) eqn:E0; cbn [dict_find].
    + apply py_eq_str_l in E0. subst k0.
      destruct (py_eq (PStr s) k); reflexivity.
    + rewrite IH.
      destruct (py_eq k0 k) eqn:E1; [|reflexivity].
      destruct (py_eq (PStr s) k) eqn:E2; [|reflexivity].
      apply py_eq_str_r in E2. subst k. congruence.
Qed.

(** A stored key never leaves, and a store never adds a second slot for a
    key that is there. *)
Lemma dict_set_keeps_keys (d : dict) (k v k' : pyval) :
  In k' (map fst d) -> In k' (map fst (dict_set d k v)).
Proof.
  induction d as [|[k0 v0] rest IH]; simpl; [tauto|].
  destruct (py_eq k0 k); simpl; tauto.
Qed.

Lemma dict_set_has_key (d : dict) (k v : pyval) :
  exists k', In k' (map fst (dict_set d k v)) /\ (k' = k \/ py_eq k' k = true).
Proof.
  induction d as [|[k0 v0] rest IH]; simpl.
  - exists k. tauto.
  - destruct (py_eq k0 k) eqn:E; simpl.
    + exists k0. tauto.
    + destruct IH as (k' & Hin & Hk). exists k'. tauto.
Qed.

(** Every entry after a store is an old entry or carries the stored value
    under the stored key or under the equal key that was there. *)
Lemma dict_set_entries (d : dict) (k v k' v' : pyval) :
  In (k', v') (dict_set d k v) ->
  In (k', v') d \/
  (v' = v /\ (k' = k \/ (py_eq k' k = true /\ exists v0, In (k', v0) d))).
Proof.
  induction d as [|[k0 v0] rest IH]; simpl.
  - intros [H|[]]. inversion H. subst. tauto.
  - destruct (py_eq k0 k) eqn:E; simpl.
    + intros [H|H]; [inversion H; subst|]; [|tauto].
      right. split; [reflexivity|]. right. split; [assumption|].
      exists v0. now left.
    + intros [H|H]; [tauto|].
      destruct (IH H) as [?|(? & [?|(? & v1 & ?)])]; [tauto|tauto|].
      right. split; [assumption|]. right. split; [assumption|].
      exists v1. now right.
Qed.

(** The size test and the item test of the two inclusions. *)
Lemma items_lt_spec (a b : dict) :
  items_lt a b = true <->
  (List.length a < List.length b)%nat /\
  forall k v, In (k, v) a ->
    exists found, dict_find b k = Some found /\ py_eq found v = true.
Proof.
  unfold items_lt. rewrite andb_true_iff, Nat.ltb_lt, forallb_forall.
  split; intros [Hlen Hall]; split; try assumption.
  - intros k v Hin. specialize (Hall (k, v) Hin).
    unfold items_contains in Hall. simpl in Hall.
    destruct (dict_find b k) as [found|]; [|discriminate]. now exists found.
  - intros [k v] Hin. destruct (Hall k v Hin) as (found & Hf & He).
    unfold items_contains. simpl. now rewrite Hf.
Qed.

Lemma items_lt_le (a b : dict) : items_lt a b = true -> items_le a b = true.
Proof.
  unfold items_lt, items_le. rewrite !andb_true_iff, Nat.ltb_lt, Nat.leb_le.
  intros [H1 H2]. split; [lia|assumption].
Qed.

Lemma items_le_false_lt (a b : dict) :
  items_le a b = false -> items_lt a b = false.
Proof.
  intros H. destruct (items_lt a b) eqn:E; [|reflexivity].
  apply items_lt_le in E. congruence.
Qed.

(** An inclusion that is not strict is one between tables of one size. *)
Lemma items_le_not_lt (a b : dict) :
  items_le a b = true -> items_lt a b = false ->
  List.length a = List.length b.
Proof.
  unfold items_lt, items_le. rewrite andb_true_iff, andb_false_iff.
  rewrite Nat.leb_le, Nat.ltb_ge. intros [H1 H2] [H3|H3]; [lia|congruence].
Qed.

(* ================================================================== *)
(** * The four ways the callback ends *)

Lemma update_rejected (w : World) (event : Event) :
  accepts (self w) event = false ->
  async_update_sensor event w = (Ok tt, w).
Proof.
  unfold accepts, async_update_sensor, bind, read_self. intros H.
  now rewrite H.
Qed.

Lemma update_key_missing (w : World) (event : Event) :
  accepts (self w) event = true ->
  dict_find (data event) (PStr (_state_key (self w))) = None ->
  async_update_sensor event w =
  (Raise (KeyError (PStr (_state_key (self w)))), w).
Proof.
  unfold accepts, async_update_sensor, bind, read_self, eval, dict_getitem.
  intros H Hk. rewrite H. simpl. now rewrite Hk.
Qed.

Lemma update_unhashable (w : World) (event : Event) (v : pyval) :
  accepts (self w) event = true ->
  dict_find (data event) (PStr (_state_key (self w))) = Some v ->
  hashable v = false ->
  async_update_sensor event w = (Raise (TypeError v), w).
Proof.
  unfold accepts, async_update_sensor, bind, read_self, eval, dict_getitem,
    dict_contains.
  intros H Hk Hh. rewrite H. simpl. now rewrite Hk, Hh.
Qed.

Lemma update_stored (w : World) (event : Event) (v : pyval) :
  accepts (self w) event = true ->
  dict_find (data event) (PStr (_state_key (self w))) = Some v ->
  hashable v = true ->
  async_update_sensor event w =
  (Ok tt,
   {| self := with_attributes (with_state (self w) (mapped_state (self w) v))
                              (event_attributes event);
      hass := host_log (WriteHaState (mapped_state (self w) v)
                                     (event_attributes event))
                       (hass w) |}).
Proof.
  unfold accepts, async_update_sensor, bind, read_self, eval, dict_getitem,
    dict_contains, mapped_state, update_self, async_write_ha_state, ret.
  intros H Hk Hh. rewrite H. simpl. rewrite Hk, Hh.
  destruct (dict_find (_state_map (self w)) v) as [m|]; simpl; reflexivity.
Qed.

(* ================================================================== *)
(** * The filter *)

(** What the callback's test amounts to: the event data has more entries
    than the filter and holds every item of the filter. *)
Lemma accepts_iff (s : EventSensor) (event : Event) :
  accepts s event = true <->
  (List.length (_event_data s) < List.length (data event))%nat /\
  forall k v, In (k, v) (_event_data s) ->
    exists found, dict_find (data event) k = Some found /\
                  py_eq found v = true.
Proof. apply items_lt_spec. Qed.

(** An accepted event satisfies the subset relation of the spec; the only
    events of the subset relation that the callback turns down are those
    with as many entries as the filter. *)
Lemma accepts_subset (s : EventSensor) (event : Event) :
  accepts s event = true -> filter_is_subset s event = true.
Proof. apply items_lt_le. Qed.

Lemma subset_turned_down (s : EventSensor) (event : Event) :
  filter_is_subset s event = true -> accepts s event = false ->
  List.length (_event_data s) = List.length (data event).
Proof. apply items_le_not_lt. Qed.

(** The strict test turns down every event whose data has as many entries
    as the filter, whatever they are. *)
Lemma same_size_never_accepted (s : EventSensor) (event : Event) :
  List.length (data event) = List.length (_event_data s) ->
  accepts s event = false.
Proof.
  intros H. unfold accepts, items_lt. rewrite H, Nat.ltb_irrefl. reflexivity.
Qed.

(** C1, the code on an event whose data is exactly the filter: the sensor
    filters on [button = 1002] and reads its state from [button]; the event
    data [{button: 1002}] holds every item of the filter and equals it, yet
    the callback's strict [<] turns the event down and leaves the entity and
    the host as they were, the state still [None]. *)
Theorem exact_match_is_turned_down :
  filter_is_subset Demo.button Demo.exact = true /\
  dict_eq (_event_data Demo.button) (data Demo.exact) = true /\
  accepts Demo.button Demo.exact = false /\
  async_update_sensor Demo.exact
    {| self := Demo.button; hass := Demo.empty_host |} =
  (Ok tt, {| self := Demo.button; hass := Demo.empty_host |}) /\
  state Demo.button = PNone.
Proof. repeat split; vm_compute; reflexivity. Qed.

(* ================================================================== *)
(** * State and attributes after an event *)

(** C2, as stated, fails: the event data [{id: remote_1, event: [1002]}]
    is a superset of the filter [{id: remote_1}] and the value at the state
    key, the list [[1002]], is no key of the state map, yet the state after
    the callback is not that value: testing the list against the state map
    raises [TypeError] and the state stays [None]. *)
Lemma superset_with_list_state_not_stored :
  let w := {| self := Demo.remote; hass := Demo.empty_host |} in
  filter_is_subset (self w) Demo.listed = true /\
  dict_find (data Demo.listed) (PStr (_state_key (self w))) =
    Some (PList [PInt 1002]) /\
  dict_find (_state_map (self w)) (PList [PInt 1002]) = None /\
  async_update_sensor Demo.listed w = (Raise (TypeError (PList [PInt 1002])), w) /\
  state (self (snd (async_update_sensor Demo.listed w))) <> PList [PInt 1002].
Proof.
  repeat split; try (vm_compute; reflexivity).
  vm_compute. discriminate.
Qed.

(** C2, amended: for every event the callback accepts whose data holds a
    hashable value at the state key, the callback returns and the state is
    the state map's entry for that value when the map has one, and the
    value itself otherwise. *)
Theorem accepted_state_is_mapped (w : World) (event : Event) (v : pyval) :
  accepts (self w) event = true ->
  dict_find (data event) (PStr (_state_key (self w))) = Some v ->
  hashable v = true ->
  let w' := snd (async_update_sensor event w) in
  fst (async_update_sensor event w) = Ok tt /\
  (forall m, dict_find (_state_map (self w)) v = Some m ->
             state (self w') = m) /\
  (dict_find (_state_map (self w)) v = None -> state (self w') = v).
Proof.
  intros Ha Hk Hh. cbv zeta. rewrite (update_stored w event v Ha Hk Hh).
  unfold mapped_state. simpl. split; [reflexivity|].
  split; [intros m Hm|intros Hm]; now rewrite Hm.
Qed.

(** A press of the remote: the code [1002] is stored as [short]. *)
Lemma accepted_state_is_mapped_witness :
  let w := {| self := Demo.remote; hass := Demo.empty_host |} in
  accepts (self w) Demo.press = true /\
  dict_find (data Demo.press) (PStr (_state_key (self w))) = Some (PInt 1002) /\
  hashable (PInt 1002) = true /\
  state (self (snd (async_update_sensor Demo.press w))) = PStr "short".
Proof.
  cbv zeta.
  split; [vm_compute; reflexivity|].
  split; [vm_compute; reflexivity|].
  split; [reflexivity|].
  apply (accepted_state_is_mapped
           {| self := Demo.remote; hass := Demo.empty_host |}
           Demo.press (PInt 1002));
    vm_compute; reflexivity.
Defined.

(** C3: an event whose data does not hold every item of the filter leaves
    the entity and the host exactly as they were: same state, same
    attributes, no call to the host and so no state written. *)
Theorem unmatched_event_changes_nothing (w : World) (event : Event) :
  filter_is_subset (self w) event = false ->
  async_update_sensor event w = (Ok tt, w).
Proof.
  intros H. apply update_rejected. unfold accepts.
  now apply items_le_false_lt.
Qed.

(** An event of another remote changes nothing. *)
Lemma unmatched_event_changes_nothing_witness :
  let w := {| self := Demo.remote; hass := Demo.empty_host |} in
  filter_is_subset (self w) Demo.foreign = false /\
  async_update_sensor Demo.foreign w = (Ok tt, w).
Proof.
  cbv zeta. split; [vm_compute; reflexivity|].
  apply (unmatched_event_changes_nothing
           {| self := Demo.remote; hass := Demo.empty_host |} Demo.foreign).
  vm_compute. reflexivity.
Defined.

(* ================================================================== *)
(** * Construction *)

Section ConstructionFacts.

Variable py_int : string -> option Z.
Variable py_float : string -> option float.
Variable make_unique_id : sensor_data -> string.

Local Abbreviation parse := (_parse_field py_int py_float).
Local Abbreviation insert :=
  (fun (acc : dict) (kv : pyval * pyval) => dict_set acc (fst kv) (snd kv)).
Local Abbreviation coerce_item :=
  (fun kv : string * string => (parse (fst kv), parse (snd kv))).

Lemma fold_keeps_keys (l : list (pyval * pyval)) (acc : dict) (k : pyval) :
  In k (map fst acc) -> In k (map fst (fold_left insert l acc)).
Proof.
  revert acc. induction l as [|[a b] l IH]; simpl; intros acc H.
  - assumption.
  - apply IH. now apply dict_set_keeps_keys.
Qed.

Lemma fold_has_raw_keys (l : list (string * string)) (acc : dict)
      (rk rv : string) :
  In (rk, rv) l ->
  exists k, In k (map fst (fold_left insert (map coerce_item l) acc)) /\
            (k = parse rk \/ py_eq k (parse rk) = true).
Proof.
  revert acc. induction l as [|[a b] l IH]; simpl; intros acc H.
  - contradiction.
  - destruct H as [H|H].
    + inversion H. subst a b.
      destruct (dict_set_has_key acc (parse rk) (parse rv)) as (k & Hin & Hk).
      exists k. split; [|assumption]. now apply fold_keeps_keys.
    + now apply IH.
Qed.

Lemma fold_entries_coerced (items l : list (string * string)) (acc : dict) :
  (forall x, In x l -> In x items) ->
  (forall k v, In (k, v) acc ->
     exists rk rv0 rk' rv,
       In (rk, rv0) items /\ In (rk', rv) items /\
       k = parse rk /\ v = parse rv /\
       (rk' = rk \/ py_eq (parse rk) (parse rk') = true)) ->
  forall k v, In (k, v) (fold_left insert (map coerce_item l) acc) ->
    exists rk rv0 rk' rv,
      In (rk, rv0) items /\ In (rk', rv) items /\
      k = parse rk /\ v = parse rv /\
      (rk' = rk \/ py_eq (parse rk) (parse rk') = true).
Proof.
  revert acc. induction l as [|[a b] l IH]; simpl; intros acc Hsub Hacc.
  - assumption.
  - apply IH; [intros x Hx; apply Hsub; now right|].
    intros k v Hin.
    assert (Hab : In (a, b) items) by (apply Hsub; now left).
    apply dict_set_entries in Hin.
    destruct Hin as [Hold|(Hv & [Hk|(He & v0 & Hin0)])].
    + now apply Hacc.
    + subst k v. exists a, b, a, b. tauto.
    + destruct (Hacc k v0 Hin0) as (rk & rv0 & _ & _ & H1 & _ & Hk & _ & _).
      subst k v. exists rk, rv0, a, b. tauto.
Qed.

Lemma parse_table_coerced (items : list (string * string)) :
  coerced_from py_int py_float items (parse_table py_int py_float items).
Proof.
  unfold coerced_from, parse_table, dict_of_items. split.
  - apply fold_entries_coerced; [tauto|]. intros k v [].
  - intros rk rv H. now apply fold_has_raw_keys with (rv := rv).
Qed.

(** C4: [_parse_field] turns a raw text into the integer [int] reads from
    it, else into the float [float] reads from it, else leaves the text;
    and the filter and the state map of a constructed sensor hold the
    fields of the configured tables coerced that way, keys and values. *)
Theorem tables_hold_coerced_fields (sd : sensor_data) :
  (forall raw z, py_int raw = Some z -> parse raw = PInt z) /\
  (forall raw f, py_int raw = None -> py_float raw = Some f ->
                 parse raw = PFloat f) /\
  (forall raw, py_int raw = None -> py_float raw = None ->
               parse raw = PStr raw) /\
  coerced_from py_int py_float (CONF_EVENT_DATA sd)
    (_event_data (__init__ py_int py_float make_unique_id sd)) /\
  coerced_from py_int py_float (CONF_STATE_MAP sd)
    (_state_map (__init__ py_int py_float make_unique_id sd)).
Proof.
  unfold _parse_field. repeat split.
  - intros raw z H. now rewrite H.
  - intros raw f H1 H2. now rewrite H1, H2.
  - intros raw H1 H2. now rewrite H1, H2.
  - apply parse_table_coerced.
  - apply parse_table_coerced.
  - apply parse_table_coerced.
  - apply parse_table_coerced.
Qed.

End ConstructionFacts.

(** The three cases of [_parse_field] and the tables of the remote. *)
Lemma tables_hold_coerced_fields_witness :
  Demo.int_of_text "1002" = Some 1002 /\
  _parse_field Demo.int_of_text Demo.float_of_text "1002" = PInt 1002 /\
  Demo.int_of_text "2.5" = None /\
  Demo.float_of_text "2.5" = Some 2.5%float /\
  _parse_field Demo.int_of_text Demo.float_of_text "2.5" = PFloat 2.5 /\
  Demo.int_of_text "remote_1" = None /\
  Demo.float_of_text "remote_1" = None /\
  _parse_field Demo.int_of_text Demo.float_of_text "remote_1" =
    PStr "remote_1" /\
  _event_data Demo.remote = [(PStr "id", PStr "remote_1")] /\
  _state_map Demo.remote =
    [(PInt 1002, PStr "short"); (PInt 1003, PStr "long");
     (PFloat 2.5, PStr "half")].
Proof.
  pose proof (tables_hold_coerced_fields Demo.int_of_text Demo.float_of_text
                Demo.unique_id_of Demo.remote_config)
    as (Hint & Hfloat & Htext & _).
  split; [vm_compute; reflexivity|].
  split; [apply Hint; vm_compute; reflexivity|].
  split; [vm_compute; reflexivity|].
  split; [vm_compute; reflexivity|].
  split; [apply Hfloat; vm_compute; reflexivity|].
  split; [vm_compute; reflexivity|].
  split; [vm_compute; reflexivity|].
  split; [apply Htext; vm_compute; reflexivity|].
  split; vm_compute; reflexivity.
Defined.

(** C5, as stated, fails: the callback accepts the event
    [{id: remote_1, battery: 80}], whose data has no entry at the state key
    [event]; reading that key raises [KeyError] before the attributes are
    assigned, so they stay empty instead of becoming the merged mapping. *)
Lemma accepted_keyless_event_keeps_attributes :
  let w := {| self := Demo.remote; hass := Demo.empty_host |} in
  accepts (self w) Demo.keyless = true /\
  async_update_sensor Demo.keyless w = (Raise (KeyError (PStr "event")), w) /\
  state_attributes (self (snd (async_update_sensor Demo.keyless w))) = [] /\
  state_attributes (self (snd (async_update_sensor Demo.keyless w))) <>
    event_attributes Demo.keyless.
Proof.
  repeat split; try (vm_compute; reflexivity).
  vm_compute. discriminate.
Qed.

(** The merged mapping read key by key: [time_fired] and [origin] read the
    event's own timestamp and origin name, every other key reads what the
    event data holds for it. *)
Lemma event_attributes_lookup (event : Event) (k : pyval) :
  dict_find (event_attributes event) k =
  if py_eq (PStr "time_fired") k then Some (PDatetime (time_fired event))
  else if py_eq (PStr "origin") k
       then Some (PStr (name_of_origin (origin event)))
       else dict_find (data event) k.
Proof.
  unfold event_attributes, dict_copy. now rewrite !dict_find_set_str.
Qed.

(** C5, amended: for every event the callback accepts whose data holds a
    hashable value at the state key, the callback returns and the
    attributes are the event data merged with the origin name under
    [origin] and the fired timestamp under [time_fired]. *)
Theorem accepted_attributes_are_merged (w : World) (event : Event) (v : pyval) :
  accepts (self w) event = true ->
  dict_find (data event) (PStr (_state_key (self w))) = Some v ->
  hashable v = true ->
  let w' := snd (async_update_sensor event w) in
  fst (async_update_sensor event w) = Ok tt /\
  state_attributes (self w') = event_attributes event /\
  forall k,
    dict_find (state_attributes (self w')) k =
    if py_eq (PStr "time_fired") k then Some (PDatetime (time_fired event))
    else if py_eq (PStr "origin") k
         then Some (PStr (name_of_origin (origin event)))
         else dict_find (data event) k.
Proof.
  intros Ha Hk Hh. cbv zeta. rewrite (update_stored w event v Ha Hk Hh).
  simpl. split; [reflexivity|]. split; [reflexivity|].
  apply event_attributes_lookup.
Qed.

(** A press of the remote: the attributes are the merged mapping. *)
Lemma accepted_attributes_are_merged_witness :
  let w := {| self := Demo.remote; hass := Demo.empty_host |} in
  accepts (self w) Demo.press = true /\
  dict_find (data Demo.press) (PStr (_state_key (self w))) = Some (PInt 1002) /\
  hashable (PInt 1002) = true /\
  state_attributes (self (snd (async_update_sensor Demo.press w))) =
    event_attributes Demo.press.
Proof.
  cbv zeta.
  split; [vm_compute; reflexivity|].
  split; [vm_compute; reflexivity|].
  split; [reflexivity|].
  apply (accepted_attributes_are_merged
           {| self := Demo.remote; hass := Demo.empty_host |}
           Demo.press (PInt 1002));
    vm_compute; reflexivity.
Defined.

(** C10: whatever the event data holds under [origin] or [time_fired], the
    merged mapping reads the event's origin name and fired timestamp there,
    because the two keys are stored after the event data is unpacked; and
    that mapping is what the entity's attributes become when the callback
    stores the event. *)
Theorem own_origin_and_time_fired_win (w : World) (event : Event) :
  accepts (self w) event = true ->
  dict_find (data event) (PStr "origin") <> None \/
  dict_find (data event) (PStr "time_fired") <> None ->
  dict_find (event_attributes event) (PStr "origin") =
    Some (PStr (name_of_origin (origin event))) /\
  dict_find (event_attributes event) (PStr "time_fired") =
    Some (PDatetime (time_fired event)) /\
  forall v,
    dict_find (data event) (PStr (_state_key (self w))) = Some v ->
    hashable v = true ->
    state_attributes (self (snd (async_update_sensor event w))) =
    event_attributes event.
Proof.
  intros Ha _. rewrite !event_attributes_lookup. simpl.
  split; [reflexivity|]. split; [reflexivity|].
  intros v Hk Hh. now rewrite (update_stored w event v Ha Hk Hh).
Qed.

(** An event that brings its own [origin] and [time_fired]. *)
Lemma own_origin_and_time_fired_win_witness :
  let w := {| self := Demo.remote; hass := Demo.empty_host |} in
  accepts (self w) Demo.shadowing = true /\
  dict_find (data Demo.shadowing) (PStr "origin") = Some (PStr "zigbee") /\
  dict_find (data Demo.shadowing) (PStr "time_fired") = Some (PInt 7) /\
  dict_find (event_attributes Demo.shadowing) (PStr "origin") =
    Some (PStr "local") /\
  dict_find (event_attributes Demo.shadowing) (PStr "time_fired") =
    Some (PDatetime 1700000000000000) /\
  dict_find (state_attributes (self (snd (async_update_sensor Demo.shadowing w))))
            (PStr "origin") = Some (PStr "local").
Proof.
  cbv zeta.
  assert (Ha : accepts Demo.remote Demo.shadowing = true)
    by (vm_compute; reflexivity).
  assert (Ho : dict_find (data Demo.shadowing) (PStr "origin") <> None \/
               dict_find (data Demo.shadowing) (PStr "time_fired") <> None)
    by (left; vm_compute; discriminate).
  destruct (own_origin_and_time_fired_win
              {| self := Demo.remote; hass := Demo.empty_host |}
              Demo.shadowing Ha Ho) as (H1 & H2 & H3).
  split; [exact Ha|].
  split; [vm_compute; reflexivity|].
  split; [vm_compute; reflexivity|].
  split; [exact H1|].
  split; [exact H2|].
  rewrite (H3 (PInt 1003)); [exact H1| vm_compute; reflexivity | reflexivity].
Defined.

(** C9: an event the callback accepts whose data has no entry at the state
    key makes the callback raise [KeyError] for that key and leaves the
    entity and the host as they were; and among accepted events a
    [KeyError] is raised for exactly those. *)
Theorem accepted_event_without_state_key_raises (w : World) (event : Event) :
  accepts (self w) event = true ->
  (dict_find (data event) (PStr (_state_key (self w))) = None ->
   async_update_sensor event w =
   (Raise (KeyError (PStr (_state_key (self w)))), w)) /\
  ((exists k, fst (async_update_sensor event w) = Raise (KeyError k)) <->
   dict_find (data event) (PStr (_state_key (self w))) = None).
Proof.
  intros Ha. split; [now apply update_key_missing|]. split.
  - intros [k Hk].
    destruct (dict_find (data event) (PStr (_state_key (self w))))
      as [v|] eqn:E; [|reflexivity].
    destruct (hashable v) eqn:Hh.
    + rewrite (update_stored w event v Ha E Hh) in Hk. discriminate.
    + rewrite (update_unhashable w event v Ha E Hh) in Hk. discriminate.
  - intros E. exists (PStr (_state_key (self w))).
    now rewrite (update_key_missing w event Ha E).
Qed.

(** An accepted event of the remote without the state key. *)
Lemma accepted_event_without_state_key_raises_witness :
  let w := {| self := Demo.remote; hass := Demo.empty_host |} in
  accepts (self w) Demo.keyless = true /\
  dict_find (data Demo.keyless) (PStr (_state_key (self w))) = None /\
  async_update_sensor Demo.keyless w = (Raise (KeyError (PStr "event")), w).
Proof.
  cbv zeta.
  assert (Ha : accepts Demo.remote Demo.keyless = true)
    by (vm_compute; reflexivity).
  split; [exact Ha|]. split; [vm_compute; reflexivity|].
  apply (accepted_event_without_state_key_raises
           {| self := Demo.remote; hass := Demo.empty_host |}
           Demo.keyless Ha).
  vm_compute. reflexivity.
Defined.

(* ================================================================== *)
(** * Adding and removing the entity *)

(** Adding the entity when the host has a last state: the state and the
    attributes are taken from it and the callback is on the bus. *)
Lemma added_with_last_state (w : World) (last : State) :
  stored_state (hass w) = Some last ->
  async_added_to_hass w =
  (Ok tt,
   {| self :=
        with_event_listener
          (with_attributes (with_state (self w) (last_state_state last))
                           (dict_copy (last_state_attributes last)))
          (Some (next_handle (hass w)));
      hass :=
        {| stored_state := Some last;
           bus := (_event (self w), next_handle (hass w)) :: bus (hass w);
           next_handle := S (next_handle (hass w));
           calls := BusListen (_event (self w)) (next_handle (hass w))
                      :: GetLastState :: calls (hass w) |} |}).
Proof.
  unfold async_added_to_hass, bind, async_get_last_state, update_self,
    read_self, bus_async_listen, host_log.
  intros H. simpl. rewrite H. simpl. rewrite ?H. reflexivity.
Qed.

(** Adding the entity when the host has none: only the callback is set up. *)
Lemma added_without_last_state (w : World) :
  stored_state (hass w) = None ->
  async_added_to_hass w =
  (Ok tt,
   {| self := with_event_listener (self w) (Some (next_handle (hass w)));
      hass :=
        {| stored_state := None;
           bus := (_event (self w), next_handle (hass w)) :: bus (hass w);
           next_handle := S (next_handle (hass w));
           calls := BusListen (_event (self w)) (next_handle (hass w))
                      :: GetLastState :: calls (hass w) |} |}).
Proof.
  unfold async_added_to_hass, bind, async_get_last_state, update_self,
    read_self, bus_async_listen, host_log, ret.
  intros H. simpl. rewrite H. simpl. rewrite ?H. reflexivity.
Qed.

(** C6, as stated, fails: the entity is added with the last state [long]
    and attributes [{id: remote_1}]; the callback then accepts the event
    [{id: remote_1, battery: 80}], which has no entry at the state key, raises
    [KeyError], and the restored state and attributes are still there. *)
Lemma restored_state_survives_accepted_event :
  let w := snd (async_added_to_hass
                  {| self := Demo.remote; hass := Demo.restoring_host |}) in
  state (self w) = PStr "long" /\
  state_attributes (self w) = [(PStr "id", PStr "remote_1")] /\
  accepts (self w) Demo.keyless = true /\
  state (self (snd (async_update_sensor Demo.keyless w))) = PStr "long" /\
  state_attributes (self (snd (async_update_sensor Demo.keyless w))) =
    [(PStr "id", PStr "remote_1")] /\
  state_attributes (self (snd (async_update_sensor Demo.keyless w))) <>
    event_attributes Demo.keyless.
Proof.
  repeat split; try (vm_compute; reflexivity).
  vm_compute. discriminate.
Qed.

(** C6, amended: when the entity is added and the host reports a last
    state, the state is that state's and the attributes are a copy of its
    attributes; and at any later moment, every event the callback accepts
    whose data holds a hashable value at the state key overwrites both, the
    state with the mapped value and the attributes with the merged mapping. *)
Theorem restored_then_overwritten (w : World) (last : State) :
  stored_state (hass w) = Some last ->
  let w1 := snd (async_added_to_hass w) in
  fst (async_added_to_hass w) = Ok tt /\
  state (self w1) = last_state_state last /\
  state_attributes (self w1) = dict_copy (last_state_attributes last) /\
  forall (later : list host_step) (event : Event) (v : pyval),
    let w2 := run w1 later in
    accepts (self w2) event = true ->
    dict_find (data event) (PStr (_state_key (self w2))) = Some v ->
    hashable v = true ->
    fst (async_update_sensor event w2) = Ok tt /\
    state (self (snd (async_update_sensor event w2))) =
      mapped_state (self w2) v /\
    state_attributes (self (snd (async_update_sensor event w2))) =
      event_attributes event.
Proof.
  intros H. cbv zeta. rewrite (added_with_last_state w last H). simpl.
  split; [reflexivity|]. split; [reflexivity|]. split; [reflexivity|].
  intros later event v Ha Hk Hh.
  rewrite (update_stored _ event v Ha Hk Hh). simpl. tauto.
Qed.

(** The remote restored to [long], then pressed. *)
Lemma restored_then_overwritten_witness :
  let w := {| self := Demo.remote; hass := Demo.restoring_host |} in
  let w1 := snd (async_added_to_hass w) in
  stored_state (hass w) =
    Some {| last_state_state := PStr "long";
            last_state_attributes := [(PStr "id", PStr "remote_1")] |} /\
  state (self w1) = PStr "long" /\
  state_attributes (self w1) = [(PStr "id", PStr "remote_1")] /\
  state (self (snd (async_update_sensor Demo.press w1))) = PStr "short" /\
  state_attributes (self (snd (async_update_sensor Demo.press w1))) =
    event_attributes Demo.press.
Proof.
  cbv zeta.
  destruct (restored_then_overwritten
              {| self := Demo.remote; hass := Demo.restoring_host |}
              {| last_state_state := PStr "long";
                 last_state_attributes := [(PStr "id", PStr "remote_1")] |}
              eq_refl) as (_ & Hs & Ha & Hlater).
  split; [reflexivity|].
  split; [exact Hs|].
  split; [exact Ha|].
  destruct (Hlater [] Demo.press (PInt 1002)) as (_ & Hs' & Ha');
    [vm_compute; reflexivity | vm_compute; reflexivity | reflexivity |].
  split; [etransitivity; [exact Hs' | vm_compute; reflexivity] | exact Ha'].
Defined.

(** C8: removal calls the remover the bus handed back exactly when the
    entity holds one, after which the bus no longer has that listener; the
    held remover is cleared either way; and a second removal calls nothing
    and changes nothing. *)
Theorem removal_deregisters_once (w : World) :
  let w1 := snd (async_will_remove_from_hass w) in
  fst (async_will_remove_from_hass w) = Ok tt /\
  _event_listener (self w1) = None /\
  match _event_listener (self w) with
  | Some listener =>
      calls (hass w1) = RemoveListener listener :: calls (hass w) /\
      ~ In listener (map snd (bus (hass w1)))
  | None => w1 = w
  end /\
  async_will_remove_from_hass w1 = (Ok tt, w1).
Proof.
  cbv zeta.
  unfold async_will_remove_from_hass, bind, read_self, call_listener,
    update_self, ret.
  destruct (_event_listener (self w)) as [listener|] eqn:E; simpl.
  - repeat split.
    rewrite in_map_iff. intros ((e, l) & Hl & Hin). simpl in Hl. subst l.
    apply filter_In in Hin. destruct Hin as [_ Hneq]. simpl in Hneq.
    now rewrite Nat.eqb_refl in Hneq.
  - rewrite E. repeat split; assumption.
Qed.

(* ================================================================== *)
(** * The unique identifier *)

(** No method assigns [_unique_id]. *)
Lemma added_keeps_unique_id (w : World) :
  unique_id (self (snd (async_added_to_hass w))) = unique_id (self w).
Proof.
  destruct (stored_state (hass w)) as [last|] eqn:E.
  - now rewrite (added_with_last_state w last E).
  - now rewrite (added_without_last_state w E).
Qed.

Lemma update_keeps_unique_id (w : World) (event : Event) :
  unique_id (self (snd (async_update_sensor event w))) = unique_id (self w).
Proof.
  destruct (accepts (self w) event) eqn:Ha;
    [|now rewrite (update_rejected w event Ha)].
  destruct (dict_find (data event) (PStr (_state_key (self w))))
    as [v|] eqn:Hk; [|now rewrite (update_key_missing w event Ha Hk)].
  destruct (hashable v) eqn:Hh.
  - now rewrite (update_stored w event v Ha Hk Hh).
  - now rewrite (update_unhashable w event v Ha Hk Hh).
Qed.

Lemma removed_keeps_unique_id (w : World) :
  unique_id (self (snd (async_will_remove_from_hass w))) = unique_id (self w).
Proof.
  unfold async_will_remove_from_hass, bind, read_self, call_listener,
    update_self, ret.
  destruct (_event_listener (self w)); reflexivity.
Qed.

Lemma run_keeps_unique_id (steps : list host_step) (w : World) :
  unique_id (self (run w steps)) = unique_id (self w).
Proof.
  unfold run. revert w. induction steps as [|st steps IH]; intros w; simpl.
  - reflexivity.
  - rewrite IH. destruct st; simpl.
    + apply added_keeps_unique_id.
    + apply update_keeps_unique_id.
    + apply removed_keeps_unique_id.
Qed.

Section UniqueId.

Variable py_int : string -> option Z.
Variable py_float : string -> option float.
Variable make_unique_id : sensor_data -> string.

(** X18: the identifier the entity reports is the one [make_unique_id]
    gave for its configuration when it was constructed, whatever the host
    has done with the entity since: adding it, delivering events to it and
    removing it never assign the identifier. *)
Theorem unique_id_is_never_reassigned
        (sd : sensor_data) (h : HomeAssistant) (steps : list host_step) :
  unique_id
    (self (run {| self := __init__ py_int py_float make_unique_id sd;
                  hass := h |} steps)) =
  make_unique_id sd.
Proof.
  rewrite run_keeps_unique_id. reflexivity.
Qed.

End UniqueId.

(* ================================================================== *)
(** * More on the callback *)

(** X1: when the callback raises, nothing was assigned and nothing was
    written: the entity and the host are as before.  The event had passed
    the filter, and the exception is the [KeyError] of a missing state key
    or the [TypeError] of an unhashable value at the state key. *)
Theorem raising_update_changes_nothing (w : World) (event : Event) (e : exn) :
  fst (async_update_sensor event w) = Raise e ->
  snd (async_update_sensor event w) = w /\
  accepts (self w) event = true /\
  ((e = KeyError (PStr (_state_key (self w))) /\
    dict_find (data event) (PStr (_state_key (self w))) = None) \/
   (exists v, e = TypeError v /\
              dict_find (data event) (PStr (_state_key (self w))) = Some v /\
              hashable v = false)).
Proof.
  destruct (accepts (self w) event) eqn:Ha;
    [|rewrite (update_rejected w event Ha); discriminate].
  destruct (dict_find (data event) (PStr (_state_key (self w))))
    as [v|] eqn:Hk.
  - destruct (hashable v) eqn:Hh.
    + rewrite (update_stored w event v Ha Hk Hh). discriminate.
    + rewrite (update_unhashable w event v Ha Hk Hh). simpl.
      intros H. inversion H. subst e.
      split; [reflexivity|]. split; [reflexivity|]. right. now exists v.
  - rewrite (update_key_missing w event Ha Hk). simpl.
    intros H. inversion H. subst e. tauto.
Qed.

(** The remote's event with a list at the state key. *)
Lemma raising_update_changes_nothing_witness :
  let w := {| self := Demo.remote; hass := Demo.restoring_host |} in
  fst (async_update_sensor Demo.listed w) = Raise (TypeError (PList [PInt 1002])) /\
  snd (async_update_sensor Demo.listed w) = w.
Proof.
  cbv zeta.
  assert (H : fst (async_update_sensor Demo.listed
                     {| self := Demo.remote; hass := Demo.restoring_host |}) =
              Raise (TypeError (PList [PInt 1002])))
    by (vm_compute; reflexivity).
  split; [exact H|].
  exact (proj1 (raising_update_changes_nothing _ _ _ H)).
Defined.

(** X2: an accepted event that the callback stores is written to the host
    once, and what is written is the state and the attributes the entity's
    properties report afterwards; the bus, the restore data and the held
    remover are not touched. *)
Theorem stored_event_is_written_once (w : World) (event : Event) :
  accepts (self w) event = true ->
  fst (async_update_sensor event w) = Ok tt ->
  let w' := snd (async_update_sensor event w) in
  calls (hass w') =
    WriteHaState (state (self w')) (state_attributes (self w'))
      :: calls (hass w) /\
  bus (hass w') = bus (hass w) /\
  stored_state (hass w') = stored_state (hass w) /\
  next_handle (hass w') = next_handle (hass w) /\
  _event_listener (self w') = _event_listener (self w).
Proof.
  intros Ha. cbv zeta.
  destruct (dict_find (data event) (PStr (_state_key (self w))))
    as [v|] eqn:Hk;
    [|rewrite (update_key_missing w event Ha Hk); discriminate].
  destruct (hashable v) eqn:Hh;
    [|rewrite (update_unhashable w event v Ha Hk Hh); discriminate].
  rewrite (update_stored w event v Ha Hk Hh). simpl. tauto.
Qed.

(** A press of the remote. *)
Lemma stored_event_is_written_once_witness :
  let w := {| self := Demo.remote; hass := Demo.restoring_host |} in
  accepts (self w) Demo.press = true /\
  fst (async_update_sensor Demo.press w) = Ok tt /\
  calls (hass (snd (async_update_sensor Demo.press w))) =
    [WriteHaState (PStr "short") (event_attributes Demo.press)].
Proof.
  cbv zeta.
  assert (Ha : accepts Demo.remote Demo.press = true)
    by (vm_compute; reflexivity).
  assert (Hr : fst (async_update_sensor Demo.press
                      {| self := Demo.remote; hass := Demo.restoring_host |}) =
               Ok tt) by (vm_compute; reflexivity).
  split; [exact Ha|]. split; [exact Hr|].
  etransitivity;
    [exact (proj1 (stored_event_is_written_once
                     {| self := Demo.remote; hass := Demo.restoring_host |}
                     Demo.press Ha Hr))|].
  vm_compute. reflexivity.
Defined.

(** X3: what the entity and the attributes become when an event is stored
    depends on the event and on the configuration only, never on what the
    entity held before: two entities with the same filter, state map and
    state key end the callback the same way, and when it returns on an
    accepted event they hold the same state and the same attributes. *)
Theorem last_event_wins (w1 w2 : World) (event : Event) :
  _event_data (self w1) = _event_data (self w2) ->
  _state_map (self w1) = _state_map (self w2) ->
  _state_key (self w1) = _state_key (self w2) ->
  fst (async_update_sensor event w1) = fst (async_update_sensor event w2) /\
  (accepts (self w1) event = true ->
   fst (async_update_sensor event w1) = Ok tt ->
   state (self (snd (async_update_sensor event w1))) =
   state (self (snd (async_update_sensor event w2))) /\
   state_attributes (self (snd (async_update_sensor event w1))) =
   state_attributes (self (snd (async_update_sensor event w2)))).
Proof.
  intros Hf Hm Hs.
  assert (Hacc : accepts (self w1) event = accepts (self w2) event)
    by (unfold accepts; now rewrite Hf).
  destruct (accepts (self w1) event) eqn:Ha1; symmetry in Hacc.
  - destruct (dict_find (data event) (PStr (_state_key (self w1))))
      as [v|] eqn:Hk1.
    + assert (Hk2 := Hk1). rewrite Hs in Hk2.
      destruct (hashable v) eqn:Hh.
      * rewrite (update_stored w1 event v Ha1 Hk1 Hh),
                (update_stored w2 event v Hacc Hk2 Hh).
        simpl. unfold mapped_state. rewrite Hm. tauto.
      * rewrite (update_unhashable w1 event v Ha1 Hk1 Hh),
                (update_unhashable w2 event v Hacc Hk2 Hh).
        simpl. split; [reflexivity|]. intros _ H. discriminate.
    + assert (Hk2 := Hk1). rewrite Hs in Hk2.
      rewrite (update_key_missing w1 event Ha1 Hk1),
              (update_key_missing w2 event Hacc Hk2).
      simpl. rewrite Hs. split; [reflexivity|]. intros _ H. discriminate.
  - rewrite (update_rejected w1 event Ha1), (update_rejected w2 event Hacc).
    simpl. split; [reflexivity|]. intros H. discriminate.
Qed.

(** The remote new, and the remote restored to [long]: after a press they
    hold the same. *)
Lemma last_event_wins_witness :
  let w1 := {| self := Demo.remote; hass := Demo.empty_host |} in
  let w2 := snd (async_added_to_hass
                   {| self := Demo.remote; hass := Demo.restoring_host |}) in
  state (self w1) = PNone /\ state (self w2) = PStr "long" /\
  state (self (snd (async_update_sensor Demo.press w1))) =
  state (self (snd (async_update_sensor Demo.press w2))).
Proof.
  cbv zeta.
  split; [vm_compute; reflexivity|]. split; [vm_compute; reflexivity|].
  apply (last_event_wins
           {| self := Demo.remote; hass := Demo.empty_host |}
           (snd (async_added_to_hass
                   {| self := Demo.remote; hass := Demo.restoring_host |}))
           Demo.press); vm_compute; reflexivity.
Defined.

(** X4: a text in the event data satisfies a filter item only when the
    filter holds the same text: if the callback accepts an event that has a
    text under a filter key, the filter's value for that key is that text. *)
Theorem text_matches_only_text
        (s : EventSensor) (event : Event) (k v : pyval) (t : string) :
  accepts s event = true ->
  In (k, v) (_event_data s) ->
  dict_find (data event) k = Some (PStr t) ->
  v = PStr t.
Proof.
  intros Ha Hin Hk. apply accepts_iff in Ha. destruct Ha as [_ Hall].
  destruct (Hall k v Hin) as (found & Hf & He).
  rewrite Hk in Hf. inversion Hf. subst found. now apply py_eq_str_r.
Qed.

(** A press of the remote, filtered on the text [remote_1]. *)
Lemma text_matches_only_text_witness :
  accepts Demo.remote Demo.press = true /\
  In (PStr "id", PStr "remote_1") (_event_data Demo.remote) /\
  dict_find (data Demo.press) (PStr "id") = Some (PStr "remote_1") /\
  PStr "remote_1" = PStr "remote_1".
Proof.
  assert (Ha : accepts Demo.remote Demo.press = true)
    by (vm_compute; reflexivity).
  assert (Hin : In (PStr "id", PStr "remote_1") (_event_data Demo.remote))
    by (vm_compute; left; reflexivity).
  assert (Hk : dict_find (data Demo.press) (PStr "id") =
               Some (PStr "remote_1")) by (vm_compute; reflexivity).
  split; [exact Ha|]. split; [exact Hin|]. split; [exact Hk|].
  exact (text_matches_only_text Demo.remote Demo.press _ _ _ Ha Hin Hk).
Defined.

(* ================================================================== *)
(** * More on the filter and the tables *)

Lemma dict_set_length (d : dict) (k v : pyval) :
  (List.length (dict_set d k v) <= S (List.length d))%nat.
Proof.
  induction d as [|[k0 v0] rest IH]; simpl; [lia|].
  destruct (py_eq k0 k); simpl; lia.
Qed.

Lemma fold_dict_set_length (l : list (pyval * pyval)) (acc : dict) :
  (List.length
     (fold_left (fun a kv => dict_set a (fst kv) (snd kv)) l acc)
   <= List.length acc + List.length l)%nat.
Proof.
  revert acc. induction l as [|[a b] l IH]; intros acc; simpl; [lia|].
  specialize (IH (dict_set acc a b)).
  pose proof (dict_set_length acc a b). simpl in *. lia.
Qed.

Lemma dict_set_keeps_bound (f : pyval -> bool) (d : dict) (k v : pyval) :
  forallb (fun e => f (fst e)) d = true -> f k = true ->
  forallb (fun e => f (fst e)) (dict_set d k v) = true.
Proof.
  induction d as [|[k0 v0] rest IH]; simpl; intros Hd Hk.
  - now rewrite Hk.
  - apply andb_true_iff in Hd. destruct Hd as [H0 Hrest].
    destruct (py_eq k0 k); simpl.
    + now rewrite H0, Hrest.
    + rewrite H0. simpl. now apply IH.
Qed.

Lemma dict_set_distinct (d : dict) (k v : pyval) :
  distinct_keys d = true -> distinct_keys (dict_set d k v) = true.
Proof.
  induction d as [|[k0 v0] rest IH]; simpl; intros H.
  - reflexivity.
  - apply andb_true_iff in H. destruct H as [H0 Hrest].
    destruct (py_eq k0 k) eqn:E; simpl.
    + now rewrite H0, Hrest.
    + rewrite (IH Hrest), andb_true_r.
      apply (dict_set_keeps_bound (fun x => negb (py_eq k0 x)));
        [assumption | now rewrite E].
Qed.

Lemma fold_dict_set_distinct (l : list (pyval * pyval)) (acc : dict) :
  distinct_keys acc = true ->
  distinct_keys
    (fold_left (fun a kv => dict_set a (fst kv) (snd kv)) l acc) = true.
Proof.
  revert acc. induction l as [|[a b] l IH]; intros acc H; simpl.
  - assumption.
  - apply IH. now apply dict_set_distinct.
Qed.

(** Storing under a key that equals one the table has: no key moves, and
    the stored key reads the new value. *)
Lemma dict_set_hit_keys (d : dict) (k v k0 : pyval) :
  In k0 (map fst d) -> py_eq k0 k = true ->
  map fst (dict_set d k v) = map fst d.
Proof.
  induction d as [|[k1 v1] rest IH]; simpl; intros Hin He; [contradiction|].
  destruct (py_eq k1 k) eqn:E; simpl; [reflexivity|].
  f_equal. apply IH; [|assumption].
  destruct Hin as [H|H]; [subst k1; congruence | assumption].
Qed.

Lemma dict_set_hit_find (d : dict) (k v k0 : pyval) :
  In k0 (map fst d) -> py_eq k0 k = true ->
  dict_find (dict_set d k v) k = Some v.
Proof.
  induction d as [|[k1 v1] rest IH]; simpl; intros Hin He; [contradiction|].
  destruct (py_eq k1 k) eqn:E; simpl; rewrite E; [reflexivity|].
  apply IH; [|assumption].
  destruct Hin as [H|H]; [subst k1; congruence | assumption].
Qed.

Section FilterFacts.

Variable py_int : string -> option Z.
Variable py_float : string -> option float.
Variable make_unique_id : sensor_data -> string.

Local Abbreviation parse := (_parse_field py_int py_float).
Local Abbreviation new := (__init__ py_int py_float make_unique_id).

(** X5: a sensor configured without an event-data filter accepts every
    event that carries some data and ignores an event that carries none:
    the strict inclusion needs the data to be larger than the empty
    filter.  The ignored event never reaches the state key, so it raises
    nothing. *)
Theorem sensor_without_filter (sd : sensor_data) (h : HomeAssistant)
        (event : Event) :
  CONF_EVENT_DATA sd = [] ->
  let w := {| self := new sd; hass := h |} in
  accepts (self w) event = negb (Nat.eqb (List.length (data event)) 0) /\
  (data event = [] -> async_update_sensor event w = (Ok tt, w)).
Proof.
  intros Hsd. cbv zeta.
  assert (Ha : accepts (new sd) event =
               negb (Nat.eqb (List.length (data event)) 0)).
  { unfold accepts, items_lt. simpl. rewrite Hsd. simpl.
    destruct (data event); reflexivity. }
  split; [exact Ha|].
  intros Hd. apply update_rejected. simpl. rewrite Ha, Hd. reflexivity.
Qed.

(** X6: a filter value that [_parse_field] read as a number is never
    matched by a text: with the single filter item [rk: rv] where [rv]
    reads as an integer, an event that holds a text under the filter key is
    turned down, even when the text is [rv] itself. *)
Theorem number_filter_misses_text (sd : sensor_data) (h : HomeAssistant)
        (rk rv : string) (z : Z) (event : Event) (t : string) :
  CONF_EVENT_DATA sd = [(rk, rv)] ->
  py_int rv = Some z ->
  dict_find (data event) (parse rk) = Some (PStr t) ->
  async_update_sensor event {| self := new sd; hass := h |} =
  (Ok tt, {| self := new sd; hass := h |}).
Proof.
  intros Hsd Hz Hk. apply update_rejected. simpl.
  destruct (accepts (new sd) event) eqn:Ha; [|reflexivity].
  apply accepts_iff in Ha. destruct Ha as [_ Hall].
  destruct (Hall (parse rk) (PInt z)) as (found & Hf & He).
  - simpl. rewrite Hsd. unfold parse_table, dict_of_items. simpl.
    left. f_equal. unfold _parse_field. now rewrite Hz.
  - rewrite Hk in Hf. inversion Hf. subst found. discriminate.
Qed.

(** X7: a constructed table never has more entries than the configuration
    gave items and none of its keys equals a later one; and an item whose
    raw key coerces to a key equal to one the table already has adds no
    entry: the keys stay as they were, so the first key is kept, and the
    coerced key now reads the value of that last item. *)
Theorem equal_keys_collapse (items : list (string * string)) :
  (List.length (parse_table py_int py_float items) <= List.length items)%nat /\
  distinct_keys (parse_table py_int py_float items) = true /\
  forall (b y : string) (k0 : pyval),
    In k0 (map fst (parse_table py_int py_float items)) ->
    py_eq k0 (parse b) = true ->
    map fst (parse_table py_int py_float (items ++ [(b, y)])) =
      map fst (parse_table py_int py_float items) /\
    dict_find (parse_table py_int py_float (items ++ [(b, y)])) (parse b) =
      Some (parse y).
Proof.
  split; [|split].
  - unfold parse_table, dict_of_items.
    pose proof (fold_dict_set_length
                  (map (fun kv => (parse (fst kv), parse (snd kv))) items) [])
      as H.
    rewrite length_map in H. exact H.
  - unfold parse_table, dict_of_items. now apply fold_dict_set_distinct.
  - intros b y k0 Hin He.
    assert (Hsnoc : parse_table py_int py_float (items ++ [(b, y)]) =
                    dict_set (parse_table py_int py_float items)
                             (parse b) (parse y)).
    { unfold parse_table, dict_of_items.
      now rewrite map_app, fold_left_app. }
    rewrite Hsnoc. split.
    + now apply dict_set_hit_keys with (k0 := k0).
    + now apply dict_set_hit_find with (k0 := k0).
Qed.

End FilterFacts.

(** A sensor without a filter, on an event with data and on one without. *)
Lemma sensor_without_filter_witness :
  let sd := {| CONF_NAME := "Any"; CONF_EVENT := "deconz_event";
               CONF_STATE := "event"; CONF_EVENT_DATA := [];
               CONF_STATE_MAP := [] |} in
  let s := __init__ Demo.int_of_text Demo.float_of_text Demo.unique_id_of sd in
  let w := {| self := s; hass := Demo.empty_host |} in
  CONF_EVENT_DATA sd = [] /\
  accepts s Demo.press = true /\
  async_update_sensor (Demo.event_of []) w = (Ok tt, w).
Proof.
  cbv zeta.
  destruct (sensor_without_filter
              Demo.int_of_text Demo.float_of_text Demo.unique_id_of
              {| CONF_NAME := "Any"; CONF_EVENT := "deconz_event";
                 CONF_STATE := "event"; CONF_EVENT_DATA := [];
                 CONF_STATE_MAP := [] |}
              Demo.empty_host Demo.press eq_refl) as [Ha _].
  destruct (sensor_without_filter
              Demo.int_of_text Demo.float_of_text Demo.unique_id_of
              {| CONF_NAME := "Any"; CONF_EVENT := "deconz_event";
                 CONF_STATE := "event"; CONF_EVENT_DATA := [];
                 CONF_STATE_MAP := [] |}
              Demo.empty_host (Demo.event_of []) eq_refl) as [_ Hn].
  split; [reflexivity|]. split; [exact Ha|]. exact (Hn eq_refl).
Defined.

(** The button sensor filters on the text [1002], read as a number; the
    event carries the text [1002]. *)
Lemma number_filter_misses_text_witness :
  let event := {| event_type := "button_pressed";
                  data := [(PStr "button", PStr "1002"); (PStr "n", PInt 1)];
                  origin := local; time_fired := 0 |} in
  let w := {| self := Demo.button; hass := Demo.empty_host |} in
  CONF_EVENT_DATA Demo.button_config = [("button", "1002")] /\
  Demo.int_of_text "1002" = Some 1002 /\
  dict_find (data event)
            (_parse_field Demo.int_of_text Demo.float_of_text "button") =
    Some (PStr "1002") /\
  async_update_sensor event w = (Ok tt, w).
Proof.
  cbv zeta.
  split; [reflexivity|]. split; [vm_compute; reflexivity|].
  split; [vm_compute; reflexivity|].
  apply (number_filter_misses_text
           Demo.int_of_text Demo.float_of_text Demo.unique_id_of
           Demo.button_config Demo.empty_host "button" "1002" 1002 _ "1002");
    vm_compute; reflexivity.
Defined.

(** The raw key [1.0] after the raw key [1]: the key [1] stays and reads
    the later value. *)
Lemma equal_keys_collapse_witness :
  In (PInt 1)
     (map fst (parse_table Demo.int_of_text Demo.float_of_text [("1", "a")])) /\
  py_eq (PInt 1) (_parse_field Demo.int_of_text Demo.float_of_text "1.0") =
    true /\
  map fst (parse_table Demo.int_of_text Demo.float_of_text
                       ([("1", "a")] ++ [("1.0", "b")])) = [PInt 1] /\
  dict_find (parse_table Demo.int_of_text Demo.float_of_text
                         ([("1", "a")] ++ [("1.0", "b")]))
            (PFloat 1) = Some (PStr "b").
Proof.
  assert (Hin : In (PInt 1)
                   (map fst (parse_table Demo.int_of_text Demo.float_of_text
                                         [("1", "a")])))
    by (vm_compute; left; reflexivity).
  assert (He : py_eq (PInt 1)
                     (_parse_field Demo.int_of_text Demo.float_of_text "1.0")
               = true) by (vm_compute; reflexivity).
  destruct (equal_keys_collapse Demo.int_of_text Demo.float_of_text
              [("1", "a")]) as (_ & _ & Hhit).
  destruct (Hhit "1.0" "b" (PInt 1) Hin He) as [Hkeys Hfind].
  split; [exact Hin|]. split; [exact He|].
  split; [etransitivity; [exact Hkeys | vm_compute; reflexivity]|].
  etransitivity; [|exact Hfind].
  vm_compute. reflexivity.
Defined.

(* ================================================================== *)
(** * More on the entity's life *)

(** What adding the entity does, whatever the host has stored. *)
Lemma added_outcome (w : World) :
  async_added_to_hass w =
  (Ok tt,
   {| self :=
        with_event_listener
          (match stored_state (hass w) with
           | Some last =>
               with_attributes (with_state (self w) (last_state_state last))
                               (dict_copy (last_state_attributes last))
           | None => self w
           end)
          (Some (next_handle (hass w)));
      hass :=
        {| stored_state := stored_state (hass w);
           bus := (_event (self w), next_handle (hass w)) :: bus (hass w);
           next_handle := S (next_handle (hass w));
           calls := BusListen (_event (self w)) (next_handle (hass w))
                      :: GetLastState :: calls (hass w) |} |}).
Proof.
  destruct (stored_state (hass w)) as [last|] eqn:E.
  - now rewrite (added_with_last_state w last E).
  - now rewrite (added_without_last_state w E).
Qed.

Lemma removed_outcome (w : World) :
  async_will_remove_from_hass w =
  match _event_listener (self w) with
  | Some listener =>
      (Ok tt,
       {| self := with_event_listener (self w) None;
          hass :=
            {| stored_state := stored_state (hass w);
               bus := filter (fun e => negb (Nat.eqb (snd e) listener))
                             (bus (hass w));
               next_handle := next_handle (hass w);
               calls := RemoveListener listener :: calls (hass w) |} |})
  | None => (Ok tt, w)
  end.
Proof.
  unfold async_will_remove_from_hass, bind, read_self, call_listener,
    update_self, ret.
  destruct (_event_listener (self w)); reflexivity.
Qed.

Lemma step_keeps_configuration (w : World) (st : host_step) :
  _name (self (step w st)) = _name (self w) /\
  _event (self (step w st)) = _event (self w) /\
  _state_key (self (step w st)) = _state_key (self w) /\
  _event_data (self (step w st)) = _event_data (self w) /\
  _state_map (self (step w st)) = _state_map (self w).
Proof.
  destruct st as [|event|]; simpl.
  - rewrite added_outcome. simpl.
    destruct (stored_state (hass w)); simpl; tauto.
  - destruct (accepts (self w) event) eqn:Ha;
      [|rewrite (update_rejected w event Ha); tauto].
    destruct (dict_find (data event) (PStr (_state_key (self w))))
      as [v|] eqn:Hk;
      [|rewrite (update_key_missing w event Ha Hk); tauto].
    destruct (hashable v) eqn:Hh.
    + rewrite (update_stored w event v Ha Hk Hh). simpl. tauto.
    + rewrite (update_unhashable w event v Ha Hk Hh). tauto.
  - rewrite removed_outcome.
    destruct (_event_listener (self w)); simpl; tauto.
Qed.

(** X8: nothing the host does with the entity changes its configuration:
    after any sequence of adding, delivering events and removing, the name,
    the event type, the state key, the filter and the state map are those
    of construction; only state, attributes and the held remover move. *)
Theorem configuration_is_kept (w : World) (steps : list host_step) :
  _name (self (run w steps)) = _name (self w) /\
  _event (self (run w steps)) = _event (self w) /\
  _state_key (self (run w steps)) = _state_key (self w) /\
  _event_data (self (run w steps)) = _event_data (self w) /\
  _state_map (self (run w steps)) = _state_map (self w).
Proof.
  unfold run. revert w. induction steps as [|st steps IH]; intros w; simpl.
  - tauto.
  - destruct (IH (step w st)) as (H1 & H2 & H3 & H4 & H5).
    destruct (step_keeps_configuration w st) as (G1 & G2 & G3 & G4 & G5).
    rewrite H1, H2, H3, H4, H5. tauto.
Qed.

(** X9: adding the entity asks the host once for the last state and once
    for a listener on the configured event type, in that order, and holds
    the remover it got; it writes no state.  Without a last state the state
    and the attributes stay as they were. *)
Theorem added_listens_to_configured_event (w : World) :
  let w1 := snd (async_added_to_hass w) in
  fst (async_added_to_hass w) = Ok tt /\
  calls (hass w1) =
    BusListen (_event (self w)) (next_handle (hass w))
      :: GetLastState :: calls (hass w) /\
  bus (hass w1) = (_event (self w), next_handle (hass w)) :: bus (hass w) /\
  _event_listener (self w1) = Some (next_handle (hass w)) /\
  match stored_state (hass w) with
  | Some last =>
      state (self w1) = last_state_state last /\
      state_attributes (self w1) = dict_copy (last_state_attributes last)
  | None =>
      state (self w1) = state (self w) /\
      state_attributes (self w1) = state_attributes (self w)
  end.
Proof.
  cbv zeta. rewrite added_outcome. simpl.
  destruct (stored_state (hass w)); simpl; tauto.
Qed.

Lemma filter_keeps_all {A : Type} (f : A -> bool) (l : list A) :
  (forall x, In x l -> f x = true) -> filter f l = l.
Proof.
  induction l as [|a l IH]; simpl; intros H; [reflexivity|].
  rewrite (H a (or_introl eq_refl)). f_equal. apply IH.
  intros x Hx. apply H. now right.
Qed.

(** X10: adding the entity and then removing it leaves the bus as it was,
    with no remover held, provided the remover the bus hands out is not one
    it already holds. *)
Theorem added_then_removed_leaves_bus (w : World) :
  ~ In (next_handle (hass w)) (map snd (bus (hass w))) ->
  bus (hass (run w [Added; Removed])) = bus (hass w) /\
  _event_listener (self (run w [Added; Removed])) = None.
Proof.
  intros Hfresh. unfold run. cbn [fold_left step].
  rewrite added_outcome. cbn [snd]. rewrite removed_outcome. simpl.
  rewrite Nat.eqb_refl. simpl. split; [|reflexivity].
  apply filter_keeps_all. intros [e l] Hin. simpl.
  destruct (Nat.eqb l (next_handle (hass w))) eqn:E; [|reflexivity].
  apply Nat.eqb_eq in E. subst l. exfalso. apply Hfresh.
  apply in_map_iff. now exists (e, next_handle (hass w)).
Qed.

(** The remote added to a host that already has another listener. *)
Lemma added_then_removed_leaves_bus_witness :
  let h := {| stored_state := None; bus := [("other_event", 0%nat)];
              next_handle := 1%nat; calls := [] |} in
  let w := {| self := Demo.remote; hass := h |} in
  ~ In (next_handle (hass w)) (map snd (bus (hass w))) /\
  bus (hass (run w [Added; Removed])) = [("other_event", 0%nat)].
Proof.
  cbv zeta.
  assert (Hfresh : ~ In 1%nat [0%nat]) by (simpl; intros [H|[]]; discriminate).
  split; [exact Hfresh|].
  exact (proj1 (added_then_removed_leaves_bus
                  {| self := Demo.remote;
                     hass := {| stored_state := None;
                                bus := [("other_event", 0%nat)];
                                next_handle := 1%nat; calls := [] |} |}
                  Hfresh)).
Defined.

(** X11: adding the entity a second time overwrites the held remover
    without calling it, so the removal that follows takes only the second
    listener off the bus: the first stays registered and the entity holds
    no remover for it. *)
Theorem second_add_orphans_first_listener (w : World) :
  let w3 := run w [Added; Added; Removed] in
  In (_event (self w), next_handle (hass w)) (bus (hass w3)) /\
  ~ In (S (next_handle (hass w))) (map snd (bus (hass w3))) /\
  _event_listener (self w3) = None /\
  calls (hass w3) =
    RemoveListener (S (next_handle (hass w)))
      :: BusListen (_event (self w)) (S (next_handle (hass w)))
      :: GetLastState
      :: BusListen (_event (self w)) (next_handle (hass w))
      :: GetLastState :: calls (hass w).
Proof.
  cbv zeta. unfold run. cbn [fold_left step].
  rewrite (added_outcome w). cbn [snd].
  rewrite added_outcome. cbn [snd]. rewrite removed_outcome. simpl.
  rewrite Nat.eqb_refl. simpl.
  assert (E : Nat.eqb (next_handle (hass w)) (S (next_handle (hass w))) = false)
    by (apply Nat.eqb_neq; lia).
  rewrite E. simpl.
  assert (Hev : forall s : EventSensor,
             _event (match stored_state (hass w) with
                     | Some last =>
                         with_attributes (with_state s (last_state_state last))
                           (dict_copy (last_state_attributes last))
                     | None => s
                     end) = _event s)
    by (intros s; destruct (stored_state (hass w)); reflexivity).
  rewrite Hev.
  split; [now left|]. split; [|split; reflexivity].
  intros [H|H]; [lia|].
  apply in_map_iff in H. destruct H as ((e, l) & Hl & Hin).
  simpl in Hl. subst l.
  apply filter_In in Hin. destruct Hin as [_ Hneq]. simpl in Hneq.
  now rewrite Nat.eqb_refl in Hneq.
Qed.

(* ================================================================== *)
(** * Config entries: the update listener *)

Import Platform.

Section UpdateListenerFacts.

Variable conf_name : string.
Variable make_unique_id : config -> string.

Local Abbreviation listener := (update_listener conf_name make_unique_id).

(** X12: options with fewer than two entries, and options equal to the
    data, are ignored: the listener returns without updating the entry or
    asking for a reload. *)
Theorem update_listener_skips_small_or_same_options
        (entry : ConfigEntry) (h : Hass) :
  (List.length (entry_options entry) <= 1)%nat \/
  config_eq (entry_data entry) (entry_options entry) = true ->
  listener entry h = (Ok tt, (entry, h)).
Proof.
  intros H. unfold update_listener.
  destruct H as [H|H].
  - apply Nat.ltb_ge in H. now rewrite H.
  - rewrite H. now rewrite andb_false_r.
Qed.

(** X13: options with two entries or more that differ from the data and
    hold a name are adopted: they become the data, the options are
    emptied, the title is the name, the unique identifier is
    [make_unique_id] of the new data, and one reload of the entry is asked
    for after the one update. *)
Theorem update_listener_adopts_options
        (entry : ConfigEntry) (h : Hass) (title : conf_value) :
  (1 < List.length (entry_options entry))%nat ->
  config_eq (entry_data entry) (entry_options entry) = false ->
  config_get (entry_options entry) conf_name = Some title ->
  let entry' := fst (snd (listener entry h)) in
  let h' := snd (snd (listener entry h)) in
  fst (listener entry h) = Ok tt /\
  entry_id entry' = entry_id entry /\
  entry_data entry' = entry_options entry /\
  entry_options entry' = [] /\
  entry_title entry' = title /\
  entry_unique_id entry' = Some (make_unique_id (entry_data entry')) /\
  domain_data h' = domain_data h /\
  setup_calls h' =
    Reload (entry_id entry)
      :: UpdateEntry (entry_id entry) (Some title)
                     (Some (entry_options entry)) (Some [])
                     (Some (make_unique_id (entry_options entry)))
      :: setup_calls h.
Proof.
  intros Hlen Hne Hname. cbv zeta. unfold update_listener, config_getitem.
  apply Nat.ltb_lt in Hlen. rewrite Hlen, Hne, Hname. simpl.
  repeat split; reflexivity.
Qed.

(** X14: options with two entries or more that differ from the data but
    hold no name make the listener raise [KeyError] for the name key
    before the host is called: the entry is not updated and no reload is
    asked for. *)
Theorem update_listener_without_name_raises
        (entry : ConfigEntry) (h : Hass) :
  (1 < List.length (entry_options entry))%nat ->
  config_eq (entry_data entry) (entry_options entry) = false ->
  config_get (entry_options entry) conf_name = None ->
  listener entry h = (Raise (KeyError (PStr conf_name)), (entry, h)).
Proof.
  intros Hlen Hne Hname. unfold update_listener, config_getitem.
  apply Nat.ltb_lt in Hlen. now rewrite Hlen, Hne, Hname.
Qed.

(** X15: the listener settles: run again on the entry and the host it left
    behind, it changes nothing.  The update it makes itself empties the
    options, so the host calling the listener back for that update does
    not start a second update or reload. *)
Theorem update_listener_settles (entry : ConfigEntry) (h : Hass) :
  fst (listener entry h) = Ok tt ->
  listener (fst (snd (listener entry h))) (snd (snd (listener entry h))) =
  (Ok tt, snd (listener entry h)).
Proof.
  destruct (listener entry h) as [r [entry' h']] eqn:Hrun. simpl.
  intros Hr. subst r. unfold update_listener in Hrun.
  destruct (Nat.ltb 1 (List.length (entry_options entry)) &&
            negb (config_eq (entry_data entry) (entry_options entry)))
    eqn:Hc.
  - destruct (config_getitem (entry_options entry) conf_name) as [title|e];
      simpl in Hrun; [|discriminate].
    inversion Hrun. subst entry' h'. reflexivity.
  - inversion Hrun. subst entry' h'. unfold update_listener. now rewrite Hc.
Qed.

End UpdateListenerFacts.

(** The installed entry has no options. *)
Lemma update_listener_skips_small_or_same_options_witness :
  (List.length (entry_options installed) <= 1)%nat /\
  update_listener "name" unique_id_of installed fresh =
  (Ok tt, (installed, fresh)).
Proof.
  assert (H : (List.length (entry_options installed) <= 1)%nat)
    by (simpl; lia).
  split; [exact H|].
  exact (update_listener_skips_small_or_same_options
           "name" unique_id_of installed fresh (or_introl H)).
Defined.

(** The edited entry: renamed and filtered on another remote. *)
Lemma update_listener_adopts_options_witness :
  (1 < List.length (entry_options edited))%nat /\
  config_eq (entry_data edited) (entry_options edited) = false /\
  config_get (entry_options edited) "name" = Some (CText "Hall remote") /\
  entry_title (fst (snd (update_listener "name" unique_id_of edited fresh))) =
    CText "Hall remote" /\
  entry_data (fst (snd (update_listener "name" unique_id_of edited fresh))) =
    entry_options edited.
Proof.
  assert (H1 : (1 < List.length (entry_options edited))%nat)
    by (simpl; lia).
  assert (H2 : config_eq (entry_data edited) (entry_options edited) = false)
    by (vm_compute; reflexivity).
  assert (H3 : config_get (entry_options edited) "name" =
               Some (CText "Hall remote")) by (vm_compute; reflexivity).
  destruct (update_listener_adopts_options
              "name" unique_id_of edited fresh (CText "Hall remote") H1 H2 H3)
    as (_ & _ & Hd & _ & Ht & _).
  split; [exact H1|]. split; [exact H2|]. split; [exact H3|].
  split; [exact Ht | exact Hd].
Defined.

(** Options that lost the name. *)
Lemma update_listener_without_name_raises_witness :
  (1 < List.length (entry_options nameless))%nat /\
  config_eq (entry_data nameless) (entry_options nameless) = false /\
  config_get (entry_options nameless) "name" = None /\
  update_listener "name" unique_id_of nameless fresh =
  (Raise (KeyError (PStr "name")), (nameless, fresh)).
Proof.
  assert (H1 : (1 < List.length (entry_options nameless))%nat)
    by (simpl; lia).
  assert (H2 : config_eq (entry_data nameless) (entry_options nameless) = false)
    by (vm_compute; reflexivity).
  assert (H3 : config_get (entry_options nameless) "name" = None)
    by (vm_compute; reflexivity).
  split; [exact H1|]. split; [exact H2|]. split; [exact H3|].
  exact (update_listener_without_name_raises
           "name" unique_id_of nameless fresh H1 H2 H3).
Defined.

(** The edited entry, updated, and the listener called back. *)
Lemma update_listener_settles_witness :
  fst (update_listener "name" unique_id_of edited fresh) = Ok tt /\
  entry_data (fst (snd (update_listener "name" unique_id_of edited fresh))) <>
    entry_data edited /\
  update_listener "name" unique_id_of
    (fst (snd (update_listener "name" unique_id_of edited fresh)))
    (snd (snd (update_listener "name" unique_id_of edited fresh))) =
  (Ok tt, snd (update_listener "name" unique_id_of edited fresh)).
Proof.
  assert (H : fst (update_listener "name" unique_id_of edited fresh) = Ok tt)
    by (vm_compute; reflexivity).
  split; [exact H|]. split; [vm_compute; discriminate|].
  exact (update_listener_settles "name" unique_id_of edited fresh H).
Defined.

(* ================================================================== *)
(** * Config entries: setting up *)

(** The two ways a setup goes: an entry id the platform knows gets an
    update call in place of a listener, a new one gets its listener. *)
Lemma setup_entry_outcome (entry : ConfigEntry) (h : Hass) :
  async_setup_entry entry h =
  if in_domain_data (entry_id entry) h then
    (entry,
     logged (AddEntities (entry_data entry) false)
       (logged (UpdateEntry (entry_id entry) None None
                            (Some (entry_options entry)) None) h))
  else
    (entry,
     {| domain_data :=
          Some (match domain_data h with
                | Some dd => (dd ++ [(entry_id entry, next_remover h)])%list
                | None => [(entry_id entry, next_remover h)]
                end);
        next_remover := S (next_remover h);
        setup_calls := AddUpdateListener (entry_id entry) (next_remover h)
                         :: AddEntities (entry_data entry) false
                         :: setup_calls h |}).
Proof.
  unfold async_setup_entry, in_domain_data.
  destruct entry as [id uid title d o]. destruct h as [[dd|] n c]; simpl.
  - destruct (existsb (fun e => String.eqb (fst e) id) dd) eqn:E; simpl.
    + unfold in_domain_data. simpl. rewrite E. reflexivity.
    + unfold in_domain_data. simpl. rewrite E. reflexivity.
  - reflexivity.
Qed.

Lemma setup_step_known (id : string) (entry : ConfigEntry) (h : Hass) :
  in_domain_data id (snd (async_setup_entry entry h)) =
  in_domain_data id h || String.eqb (entry_id entry) id.
Proof.
  rewrite setup_entry_outcome.
  destruct (in_domain_data (entry_id entry) h) eqn:E; simpl.
  - unfold in_domain_data in *. simpl.
    destruct (String.eqb (entry_id entry) id) eqn:Eid.
    + apply String.eqb_eq in Eid. subst id. rewrite E. reflexivity.
    + now rewrite orb_false_r.
  - unfold in_domain_data in *. simpl.
    destruct (domain_data h) as [dd|]; simpl.
    + rewrite existsb_app. simpl. now rewrite orb_false_r.
    + now rewrite orb_false_r.
Qed.

Lemma setup_step_listeners (id : string) (entry : ConfigEntry) (h : Hass) :
  listeners_added id (snd (async_setup_entry entry h)) =
  (listeners_added id h +
   (if negb (in_domain_data (entry_id entry) h) &&
       String.eqb (entry_id entry) id then 1 else 0))%nat.
Proof.
  rewrite setup_entry_outcome. unfold listeners_added.
  destruct (in_domain_data (entry_id entry) h); simpl.
  - lia.
  - destruct (String.eqb (entry_id entry) id); simpl; lia.
Qed.

Lemma setup_step_entities (entry : ConfigEntry) (h : Hass) :
  entities_added (snd (async_setup_entry entry h)) =
  (entities_added h ++ [entry_data entry])%list.
Proof.
  rewrite setup_entry_outcome. unfold entities_added.
  destruct (in_domain_data (entry_id entry) h); reflexivity.
Qed.

Lemma setup_all_facts (entries : list ConfigEntry) (h : Hass) :
  (forall id, listeners_added id h =
              if in_domain_data id h then 1%nat else 0%nat) ->
  (forall id, listeners_added id (setup_all entries h) =
              if in_domain_data id (setup_all entries h)
              then 1%nat else 0%nat) /\
  (forall id, in_domain_data id (setup_all entries h) =
              in_domain_data id h ||
              existsb (fun e => String.eqb (entry_id e) id) entries) /\
  entities_added (setup_all entries h) =
  (entities_added h ++ map entry_data entries)%list.
Proof.
  unfold setup_all. revert h.
  induction entries as [|e entries IH]; intros h Hinv; simpl.
  - split; [exact Hinv|]. split; [intros id; now rewrite orb_false_r|].
    now rewrite app_nil_r.
  - destruct (IH (snd (async_setup_entry e h))) as (H1 & H2 & H3).
    + intros id. rewrite setup_step_listeners, setup_step_known, Hinv.
      destruct (in_domain_data id h) eqn:Eid;
        destruct (String.eqb (entry_id e) id) eqn:Ee; simpl;
        try (rewrite andb_false_r; reflexivity).
      * apply String.eqb_eq in Ee. subst id. now rewrite Eid.
      * apply String.eqb_eq in Ee. subst id. now rewrite Eid.
    + split; [exact H1|]. split.
      * intros id. rewrite H2, setup_step_known. now rewrite orb_assoc.
      * rewrite H3, setup_step_entities, <- app_assoc. reflexivity.
Qed.

(** X16: however many times and in whatever order entries are set up on a
    host that had none, every entry id set up gets exactly one update
    listener, however often it was set up, and no other id gets one; and
    every setup adds one entity, constructed from the data of its entry. *)
Theorem one_update_listener_per_entry (entries : list ConfigEntry) :
  (forall id,
     listeners_added id (setup_all entries fresh) =
     if existsb (fun e => String.eqb (entry_id e) id) entries
     then 1%nat else 0%nat) /\
  entities_added (setup_all entries fresh) = map entry_data entries.
Proof.
  destruct (setup_all_facts entries fresh) as (H1 & H2 & H3);
    [intros id; reflexivity|].
  split.
  - intros id. rewrite H1, H2. reflexivity.
  - rewrite H3. reflexivity.
Qed.

Section ReloadFacts.

Variable conf_name : string.
Variable make_unique_id : config -> string.

(** X17: when the update listener has adopted the options, the setup that
    the reload runs adds one entity constructed from exactly those options,
    and the entry that setup hands back has [make_unique_id] of that same
    mapping as its unique identifier. *)
Theorem reload_constructs_from_adopted_options
        (entry : ConfigEntry) (h : Hass) (title : conf_value) :
  (1 < List.length (entry_options entry))%nat ->
  config_eq (entry_data entry) (entry_options entry) = false ->
  config_get (entry_options entry) conf_name = Some title ->
  let entry' := fst (snd (update_listener conf_name make_unique_id entry h)) in
  let h' := snd (snd (update_listener conf_name make_unique_id entry h)) in
  entities_added (snd (async_setup_entry entry' h')) =
    (entities_added h ++ [entry_options entry])%list /\
  entry_unique_id (fst (async_setup_entry entry' h')) =
    Some (make_unique_id (entry_options entry)).
Proof.
  intros Hlen Hne Hname. cbv zeta. rewrite setup_step_entities.
  rewrite setup_entry_outcome.
  unfold update_listener, config_getitem.
  apply Nat.ltb_lt in Hlen. rewrite Hlen, Hne, Hname. simpl.
  split; [reflexivity|].
  match goal with |- context [if ?c then _ else _] => destruct c end;
    reflexivity.
Qed.

End ReloadFacts.

(** The edited entry, set up before the edit, updated and set up again. *)
Lemma reload_constructs_from_adopted_options_witness :
  let h := snd (async_setup_entry installed fresh) in
  let entry' := fst (snd (update_listener "name" unique_id_of edited h)) in
  let h' := snd (snd (update_listener "name" unique_id_of edited h)) in
  (1 < List.length (entry_options edited))%nat /\
  config_eq (entry_data edited) (entry_options edited) = false /\
  config_get (entry_options edited) "name" = Some (CText "Hall remote") /\
  entities_added (snd (async_setup_entry entry' h')) =
    [entry_data installed; entry_options edited] /\
  listeners_added "e1" (snd (async_setup_entry entry' h')) = 1%nat.
Proof.
  cbv zeta.
  assert (H1 : (1 < List.length (entry_options edited))%nat)
    by (simpl; lia).
  assert (H2 : config_eq (entry_data edited) (entry_options edited) = false)
    by (vm_compute; reflexivity).
  assert (H3 : config_get (entry_options edited) "name" =
               Some (CText "Hall remote")) by (vm_compute; reflexivity).
  split; [exact H1|]. split; [exact H2|]. split; [exact H3|].
  split; [|vm_compute; reflexivity].
  etransitivity;
    [exact (proj1 (reload_constructs_from_adopted_options
                     "name" unique_id_of edited
                     (snd (async_setup_entry installed fresh))
                     (CText "Hall remote") H1 H2 H3))|].
  vm_compute. reflexivity.
Defined.
